(** * NEPHRA / HydrateAI: the toast store, the rank table, the mock
    leaderboard, the dashboard simulation and the profile server action.

  Every definition below is a transcription of a function of the
  TypeScript sources; the comment in front of it names the function.
  JavaScript numbers that the application only ever uses as integers
  (identifiers, millilitres, experience points, time in milliseconds) are
  [Z]; the two places where a fraction can occur ([Math.random] and the
  progress percentage of [getHydrationRank]) use exact rationals [Q]. *)

From Stdlib Require Import ZArith QArith Qround Ascii String List Sorted Lia Lqa.
From stdpp Require Import gmap strings list pretty.

Local Open Scope string_scope.
Local Open Scope Z_scope.

(** ** hooks/use-toast.ts *)

Module UseToast.

Definition TOAST_LIMIT : nat := 1.
Definition TOAST_REMOVE_DELAY : Z := 1000000.
Definition MAX_SAFE_INTEGER : Z := 9007199254740991.

(** [React.ReactNode]: a piece of text or an element, known by identity. *)
Inductive ReactNode :=
| Text (s : string)
| Element (key : positive).

Definition ToastActionElement := positive.

(** The only [onOpenChange] closure this module builds is the one of
    [toast]: [(open) => { if (!open) dismiss() }], with [dismiss] bound to
    the identifier of the toast. *)
Inductive OpenChangeHandler :=
| DismissWhenClosed (toastId : string).

(** [ToasterToast]. An optional property is an [option]; [None] is
    [undefined]. *)
Record ToasterToast := mkToast {
  id : string;
  title : option ReactNode;
  description : option ReactNode;
  action : option ToastActionElement;
  open : option bool;
  onOpenChange : option OpenChangeHandler
}.

(** [Partial<ToasterToast>]: a key is absent ([None]) or present with a
    value, which may itself be [undefined] ([Some None]). *)
Record PartialToast := mkPartial {
  part_id : option string;
  part_title : option (option ReactNode);
  part_description : option (option ReactNode);
  part_action : option (option ToastActionElement);
  part_open : option (option bool);
  part_onOpenChange : option (option OpenChangeHandler)
}.

(** [Toast = Omit<ToasterToast, "id">]. *)
Record Toast := mkProps {
  props_title : option ReactNode;
  props_description : option ReactNode;
  props_action : option ToastActionElement;
  props_open : option bool;
  props_onOpenChange : option OpenChangeHandler
}.

Inductive Action :=
| ADD_TOAST (toast : ToasterToast)
| UPDATE_TOAST (toast : PartialToast)
| DISMISS_TOAST (toastId : option string)
| REMOVE_TOAST (toastId : option string).

Record State := mkState { toasts : list ToasterToast }.

(** What a timer does when it fires: the arrow function handed to
    [setTimeout] by [addToRemoveQueue]. *)
Inductive TimerCallback :=
| RemoveToastLater (toastId : string).

Record Timer := mkTimer {
  handle : nat;
  due : Z;
  callback : TimerCallback
}.

(** The mutable variables of the module ([count], [toastTimeouts],
    [memoryState], [listeners]) together with the part of the host they
    touch: the clock, the pending timers, and the React state cell behind
    each subscribed [setState]. *)
Record Env := mkEnv {
  now : Z;
  nextHandle : nat;
  timers : list Timer;
  toastTimeouts : gmap string nat;
  count : Z;
  memoryState : State;
  listeners : list nat;
  rendered : gmap nat State
}.

Definition M (A : Type) : Type := Env -> A * Env.
Definition ret {A} (a : A) : M A := fun e => (a, e).
Definition bind {A B} (m : M A) (k : A -> M B) : M B :=
  fun e => let (a, e1) := m e in k a e1.
Definition get {A} (f : Env -> A) : M A := fun e => (f e, e).
Definition modify (f : Env -> Env) : M unit := fun e => (tt, f e).

Notation "'let!' x ':=' m 'in' k" := (bind m (fun x => k))
  (at level 10, x name, m at level 100, k at level 200, only parsing).
Notation "m >>; k" := (bind m (fun _ => k))
  (at level 100, k at level 200, only parsing, right associativity).

Definition set_timers (f : list Timer -> list Timer) (e : Env) : Env :=
  mkEnv (now e) (nextHandle e) (f (timers e)) (toastTimeouts e) (count e)
        (memoryState e) (listeners e) (rendered e).
Definition set_nextHandle (h : nat) (e : Env) : Env :=
  mkEnv (now e) h (timers e) (toastTimeouts e) (count e)
        (memoryState e) (listeners e) (rendered e).
Definition set_toastTimeouts (f : gmap string nat -> gmap string nat) (e : Env) : Env :=
  mkEnv (now e) (nextHandle e) (timers e) (f (toastTimeouts e)) (count e)
        (memoryState e) (listeners e) (rendered e).
Definition set_count (c : Z) (e : Env) : Env :=
  mkEnv (now e) (nextHandle e) (timers e) (toastTimeouts e) c
        (memoryState e) (listeners e) (rendered e).
Definition set_memoryState (s : State) (e : Env) : Env :=
  mkEnv (now e) (nextHandle e) (timers e) (toastTimeouts e) (count e)
        s (listeners e) (rendered e).
Definition set_rendered (f : gmap nat State -> gmap nat State) (e : Env) : Env :=
  mkEnv (now e) (nextHandle e) (timers e) (toastTimeouts e) (count e)
        (memoryState e) (listeners e) (f (rendered e)).
(** The clock of the host moves. *)
Definition set_now (t : Z) (e : Env) : Env :=
  mkEnv t (nextHandle e) (timers e) (toastTimeouts e) (count e)
        (memoryState e) (listeners e) (rendered e).

(** [setTimeout(cb, delay)]: a fresh handle, due [delay] ms from now. *)
Definition setTimeout (cb : TimerCallback) (delay : Z) : M nat :=
  let! h := get nextHandle in
  let! t := get now in
  modify (set_timers (fun q => (q ++ [mkTimer h (t + delay) cb])%list)) >>;
  modify (set_nextHandle (S h)) >>;
  ret h.

(** [genId]. *)
Definition genId : M string :=
  let! c := get count in
  let c' := Z.rem (c + 1) MAX_SAFE_INTEGER in
  modify (set_count c') >>;
  ret (pretty c').

(** [addToRemoveQueue]. *)
Definition addToRemoveQueue (toastId : string) : M unit :=
  let! q := get toastTimeouts in
  match q !! toastId with
  | Some _ => ret tt
  | None =>
      let! timeout := setTimeout (RemoveToastLater toastId) TOAST_REMOVE_DELAY in
      modify (set_toastTimeouts (insert toastId timeout))
  end.

(** [array.forEach(f)] for an effectful [f]. *)
Fixpoint forEach {A} (f : A -> M unit) (l : list A) : M unit :=
  match l with
  | [] => ret tt
  | x :: l' => f x >>; forEach f l'
  end.

(** JavaScript truthiness of an optional string: [undefined] and the
    empty string are falsy. *)
Definition truthy (toastId : option string) : bool :=
  match toastId with
  | None => false
  | Some EmptyString => false
  | Some _ => true
  end.

(** [t.id === x] for [x : string | undefined]; [t.id] is a string. *)
Definition id_is (x : option string) (t : ToasterToast) : bool :=
  match x with
  | Some i => String.eqb (id t) i
  | None => false
  end.

Definition is_undefined {A} (x : option A) : bool :=
  match x with None => true | Some _ => false end.

(** [{ ...t, ...p }]: each key present in [p] overrides the one of [t]. *)
Definition spread (t : ToasterToast) (p : PartialToast) : ToasterToast :=
  mkToast (default (id t) (part_id p))
          (default (title t) (part_title p))
          (default (description t) (part_description p))
          (default (action t) (part_action p))
          (default (open t) (part_open p))
          (default (onOpenChange t) (part_onOpenChange p)).

(** [{ ...t, open: false }]. *)
Definition close (t : ToasterToast) : ToasterToast :=
  mkToast (id t) (title t) (description t) (action t) (Some false)
          (onOpenChange t).

(** [array.slice(0, n)]. *)
Definition slice0 {A} (n : nat) (l : list A) : list A := take n l.

(** [reducer]. The [DISMISS_TOAST] case has a side effect on the removal
    queue, so the reducer lives in [M]. *)
Definition reducer (state : State) (a : Action) : M State :=
  match a with
  | ADD_TOAST toast =>
      ret (mkState (slice0 TOAST_LIMIT (toast :: toasts state)))
  | UPDATE_TOAST toast =>
      ret (mkState
             (map (fun t => if id_is (part_id toast) t then spread t toast else t)
                  (toasts state)))
  | DISMISS_TOAST toastId =>
      (if truthy toastId
       then addToRemoveQueue (default EmptyString toastId)
       else forEach (fun toast => addToRemoveQueue (id toast)) (toasts state)) >>;
      ret (mkState
             (map (fun t => if id_is toastId t || is_undefined toastId
                            then close t else t)
                  (toasts state)))
  | REMOVE_TOAST toastId =>
      match toastId with
      | None => ret (mkState [])
      | Some i => ret (mkState (filter (fun t => id t ≠ i) (toasts state)))
      end
  end.

(** [dispatch]: run the reducer on [memoryState], then hand the new state
    to every listener (each is the [setState] of a mounted component). *)
Definition dispatch (a : Action) : M unit :=
  let! s := get memoryState in
  let! s' := reducer s a in
  modify (set_memoryState s') >>;
  let! ls := get listeners in
  forEach (fun l => modify (set_rendered (insert l s'))) ls.

Definition dismiss (toastId : string) : M unit :=
  dispatch (DISMISS_TOAST (Some toastId)).

(** [update] of [toast]: [{ ...props, id }] as an [UPDATE_TOAST]. The
    argument is taken with the keys it happens to carry. *)
Definition update (toastId : string) (props : PartialToast) : M unit :=
  dispatch (UPDATE_TOAST
              (mkPartial (Some toastId) (part_title props)
                         (part_description props) (part_action props)
                         (part_open props) (part_onOpenChange props))).

(** [toast]; the returned object is represented by its [id], from which
    [dismiss] and [update] above are the two methods. *)
Definition toast (props : Toast) : M string :=
  let! i := genId in
  dispatch (ADD_TOAST (mkToast i (props_title props) (props_description props)
                               (props_action props) (Some true)
                               (Some (DismissWhenClosed i)))) >>;
  ret i.

(** Calling a toast's [onOpenChange]. *)
Definition run_onOpenChange (h : OpenChangeHandler) (isOpen : bool) : M unit :=
  match h with
  | DismissWhenClosed i => if isOpen then ret tt else dismiss i
  end.

(** The body of the timer callback of [addToRemoveQueue]. *)
Definition run_callback (cb : TimerCallback) : M unit :=
  match cb with
  | RemoveToastLater i =>
      modify (set_toastTimeouts (delete i)) >>;
      dispatch (REMOVE_TOAST (Some i))
  end.

(** The host fires a pending timer once its time has come. *)
Definition fire (t : Timer) : M unit :=
  modify (set_timers (filter (fun u => handle u ≠ handle t))) >>;
  run_callback (callback t).

Definition initial : Env :=
  mkEnv 0 0 [] ∅ 0 (mkState []) [] ∅.

End UseToast.

(** ** lib/utils.ts *)

Module Utils.

Record Rank := mkRank { level : Z; name : string }.

Record HydrationRank := mkHydrationRank {
  rank : string;
  nextRank : string;
  progress : Q
}.

Definition ranks : list Rank :=
  [ mkRank 1 "Trainee";
    mkRank 5 "Scout";
    mkRank 10 "Adept";
    mkRank 15 "Hydrator";
    mkRank 20 "Hydro-Hero";
    mkRank 25 "Aqua-Knight";
    mkRank 30 "Master";
    mkRank 40 "Hydration Lord";
    mkRank 50 "Poseidon's Chosen" ].

(** [lvl >= r.level]. *)
Definition reached (lvl : Q) (r : Rank) : bool :=
  Qle_bool (inject_Z (level r)) lvl.

(** The [for (const rank of ranks)] loop: [currentRank] is overwritten
    while the level reaches the threshold, and the first threshold that
    is not reached breaks out. *)
Fixpoint scan (lvl : Q) (currentRank : Rank) (rest : list Rank) : Rank :=
  match rest with
  | [] => currentRank
  | r :: rest' => if reached lvl r then scan lvl r rest' else currentRank
  end.

(** [array.findIndex(p)], [-1] when nothing matches. *)
Fixpoint findIndex {A} (p : A -> bool) (l : list A) : Z :=
  match l with
  | [] => -1
  | x :: l' =>
      if p x then 0
      else let i := findIndex p l' in if i <? 0 then -1 else i + 1
  end.

(** [array[i]], [undefined] out of range. *)
Definition at_index {A} (l : list A) (i : Z) : option A :=
  if i <? 0 then None else l !! Z.to_nat i.

(** [getHydrationRank]. [ranks[0]] is defined because the table is a
    non-empty literal; the default of [nth] is never taken. *)
Definition getHydrationRank (lvl : Q) : HydrationRank :=
  let currentRank := scan lvl (nth 0 ranks (mkRank 0 EmptyString)) ranks in
  let currentRankIndex :=
    findIndex (fun r => String.eqb (name r) (name currentRank)) ranks in
  match at_index ranks (currentRankIndex + 1) with
  | None => mkHydrationRank (name currentRank) "Max Rank" 100%Q
  | Some next =>
      mkHydrationRank
        (name currentRank) (name next)
        (((lvl - inject_Z (level currentRank))
          / (inject_Z (level next) - inject_Z (level currentRank))) * 100)%Q
  end.

End Utils.

(** ** lib/leaderboard-data.ts *)

Module LeaderboardData.

Inductive Icon :=
| Award | Shield | Target | Calendar | Sparkles | Trophy | Droplet | Clock
| Wind | Zap | Mountain | Star | Moon | Sun | Heart | Coffee | Anchor
| GitCommit | Bot | Gift | Gem | ShieldCheck | Sword.

Module User.
Record t := mk {
  id : Z; rank : Z; name : string; drops : Z;
  avatar : string; streak : Z; level : Z
}.
End User.

Module Achievement.
Record t := mk {
  id : Z; icon : Icon; title : string; description : string
}.
End Achievement.

(** An element of [allAchievements[user.id]]: [{ ...ach, achieved }]. *)
Module Unlockable.
Record t := mk {
  id : Z; icon : Icon; title : string; description : string;
  achieved : bool
}.
End Unlockable.

Definition leaderboardData : list User.t :=
  [ User.mk 1 1 "Joan Clarke" 13500 "woman thinking" 42 28;
    User.mk 2 2 "Alan Turing" 12800 "man with glasses" 35 26;
    User.mk 3 3 "Grace Hopper" 12000 "woman in navy uniform" 30 24;
    User.mk 4 4 "David J. Malan" 11500 "man teaching computer science" 28 23;
    User.mk 5 5 "Ada Lovelace" 11200 "victorian woman writing" 25 22;
    User.mk 6 6 "Duo" 10800 "green owl mascot" 200 21;
    User.mk 7 7 "Steve" 10500 "blocky character mining" 18 20;
    User.mk 8 8 "Rubber Ducky" 10100 "rubber duck with code" 15 19;
    User.mk 9 9 "Donald Knuth" 9800 "man with organ pipes" 12 18;
    User.mk 10 10 "Margaret Hamilton" 9500 "woman with stack of books" 10 17 ].

Definition allAchievementsList : list Achievement.t :=
  [ Achievement.mk 1 Droplet "First Sip" "Log your first drink.";
    Achievement.mk 2 Award "Half-Litre Hero" "Drink 500 mL in a day.";
    Achievement.mk 3 Target "Daily Goal Crusher" "Hit your daily target once.";
    Achievement.mk 4 Star "Hydration Rookie" "Drink 10 L total.";
    Achievement.mk 5 Trophy "H2O Pro" "Drink 100 L total.";
    Achievement.mk 6 Shield "Liquid Legend" "Drink 500 L total.";
    Achievement.mk 7 Gem "HydraMaster" "Drink 1000 L total.";
    Achievement.mk 8 Calendar "3-Day Streaker" "Hit your daily target 3 days in a row.";
    Achievement.mk 9 Calendar "Weekly Winner" "Hit daily target for 7 consecutive days.";
    Achievement.mk 10 Calendar "Month of Flow" "30 days without missing a goal.";
    Achievement.mk 11 Anchor "Iron Will" "90-day streak.";
    Achievement.mk 12 GitCommit "365 Days of Clarity" "1 year without missing a day.";
    Achievement.mk 13 Zap "Perfect Pour" "Hit your goal exactly, no more no less.";
    Achievement.mk 14 Clock "Right on Time" "Meet all timed drinking reminders for a day.";
    Achievement.mk 15 Wind "Speed Sipper" "Log 200 mL within 60 seconds of a reminder.";
    Achievement.mk 16 Heart "Even Flow" "Keep each drinking session evenly distributed.";
    Achievement.mk 17 Bot "Adaptive Athlete" "Adjust goal and meet it perfectly 3 days.";
    Achievement.mk 18 Sun "Summer Survivor" "Meet goal every day in a heatwave week.";
    Achievement.mk 19 Mountain "Winter Warrior" "Stay hydrated for 14 days in winter.";
    Achievement.mk 20 Gift "Festival Flow" "Log water during a major festival day.";
    Achievement.mk 21 Sword "Boss Battle Victor" "Complete a high-goal challenge event.";
    Achievement.mk 22 Trophy "Hydration Marathoner" "Log every drink in a 24-hour event.";
    Achievement.mk 23 Moon "Midnight Mirage" "Log a drink between 12:00 AM and 3:00 AM.";
    Achievement.mk 24 ShieldCheck "Double Hydra" "Drink double your daily goal.";
    Achievement.mk 25 Droplet "One-Sip Wonder" "Log 500 mL in a single sip.";
    Achievement.mk 26 Sparkles "Quantum Sip" "Log 42 mL. The answer to everything.";
    Achievement.mk 27 Zap "Dehydration Slayer" "Return after a 7-day break and crush your goal.";
    Achievement.mk 28 Coffee "Bottle Buddy" "Sync with a friend and both meet goals." ].

(** [(ach.id * 3 + user.id * 5) % 10 > 3]; [%] is the remainder of
    truncated division. *)
Definition unlocked (user : User.t) (ach : Achievement.t) : bool :=
  3 <? Z.rem (Achievement.id ach * 3 + User.id user * 5) 10.

(** The callback of [allAchievementsList.map]. *)
Definition unlock (user : User.t) (ach : Achievement.t) : Unlockable.t :=
  Unlockable.mk (Achievement.id ach) (Achievement.icon ach)
                (Achievement.title ach) (Achievement.description ach)
                (unlocked user ach).

(** The callback of [leaderboardData.reduce]: it assigns
    [acc[user.id]] and returns [acc]. *)
Definition assign (acc : gmap Z (list Unlockable.t)) (user : User.t)
  : gmap Z (list Unlockable.t) :=
  <[User.id user := map (unlock user) allAchievementsList]> acc.

(** [allAchievements]: the [reduce] over the users, from the empty
    object. *)
Definition allAchievements : gmap Z (list Unlockable.t) :=
  foldl assign ∅ leaderboardData.

End LeaderboardData.

(** ** app/dashboard/dashboard-client.tsx *)

Module Dashboard.

Import UseToast.

(** [MotivationOutput] of ai/schemas. *)
Record MotivationOutput := mkMotivation {
  message : string;
  motivation_title : string
}.

Record Hydration := mkHydration { current : Z; goal : Z }.

(** The [useState] cells of [DashboardClient]. *)
Record Component := mkComponent {
  isConnected : bool;
  hydration : Hydration;
  bottleLevel : Z;
  streak : Z;
  motivation : MotivationOutput;
  level : Z;
  xp : Z;
  drops : Z;
  levelUpInfo : option Z
}.

(** The initial values passed to [React.useState]. *)
Definition mount (initialMotivation : MotivationOutput) : Component :=
  mkComponent false (mkHydration 0 2500) 750 0 initialMotivation 1 0 0 None.

(** The state setters; each takes an updater of the previous value. *)
Definition setIsConnected (f : bool -> bool) (s : Component) : Component :=
  mkComponent (f (isConnected s)) (hydration s) (bottleLevel s) (streak s)
              (motivation s) (level s) (xp s) (drops s) (levelUpInfo s).
Definition setHydration (f : Hydration -> Hydration) (s : Component) : Component :=
  mkComponent (isConnected s) (f (hydration s)) (bottleLevel s) (streak s)
              (motivation s) (level s) (xp s) (drops s) (levelUpInfo s).
Definition setBottleLevel (f : Z -> Z) (s : Component) : Component :=
  mkComponent (isConnected s) (hydration s) (f (bottleLevel s)) (streak s)
              (motivation s) (level s) (xp s) (drops s) (levelUpInfo s).
Definition setStreak (f : Z -> Z) (s : Component) : Component :=
  mkComponent (isConnected s) (hydration s) (bottleLevel s) (f (streak s))
              (motivation s) (level s) (xp s) (drops s) (levelUpInfo s).
Definition setLevel (f : Z -> Z) (s : Component) : Component :=
  mkComponent (isConnected s) (hydration s) (bottleLevel s) (streak s)
              (motivation s) (f (level s)) (xp s) (drops s) (levelUpInfo s).
Definition setXp (f : Z -> Z) (s : Component) : Component :=
  mkComponent (isConnected s) (hydration s) (bottleLevel s) (streak s)
              (motivation s) (level s) (f (xp s)) (drops s) (levelUpInfo s).
Definition setDrops (f : Z -> Z) (s : Component) : Component :=
  mkComponent (isConnected s) (hydration s) (bottleLevel s) (streak s)
              (motivation s) (level s) (xp s) (f (drops s)) (levelUpInfo s).
Definition setLevelUpInfo (f : option Z -> option Z) (s : Component) : Component :=
  mkComponent (isConnected s) (hydration s) (bottleLevel s) (streak s)
              (motivation s) (level s) (xp s) (drops s) (f (levelUpInfo s)).

(** A setter called with a plain value. *)
Definition const {A} (v : A) : A -> A := fun _ => v.

(** Derived values of a render. *)
Definition xpToNextLevel (s : Component) : Z := level s * 100.
Definition hydrationRank (s : Component) : Utils.HydrationRank :=
  Utils.getHydrationRank (inject_Z (level s)).

(** [50 * (Math.floor(Math.random() * 3) + 1)], for the value [rnd]
    returned by [Math.random()]. *)
Definition drank (rnd : Q) : Z := 50 * (Qfloor (rnd * 3) + 1).

(** The body of the [setInterval] callback once [drank] is known. The
    updater of [setXp] calls [setLevel] and [setLevelUpInfo] when the new
    total reaches [xpToNextLevel], which is the value of the render that
    installed the interval. *)
Definition logDrink (d : Z) (s : Component) : Component :=
  if 0 <? d then
    let goalXp := xpToNextLevel s in
    let s1 :=
      setXp (fun currentXp =>
               let newXp := currentXp + d in
               if goalXp <=? newXp then newXp - goalXp else newXp) s in
    let s2 :=
      if goalXp <=? xp s + d
      then setLevelUpInfo (const (Some (level s + 1)))
             (setLevel (fun prevLevel => prevLevel + 1) s1)
      else s1 in
    let s3 :=
      setHydration (fun prev =>
                      mkHydration (Z.min (current prev + d) (goal prev))
                                  (goal prev)) s2 in
    let s4 := setBottleLevel (fun lvl => Z.max 0 (lvl - d)) s3 in
    setDrops (fun dr => dr + d / 10) s4
  else s.

(** One firing of the interval. *)
Definition intervalTick (rnd : Q) (s : Component) : Component :=
  logDrink (drank rnd) s.

(** The effect that announces a new level. *)
Definition levelUpEffect (s : Component) : M Component :=
  match levelUpInfo s with
  | Some n =>
      if n =? 0 then ret s
      else
        let! _ := toast (mkProps
                           (Some (Text "Level Up!"))
                           (Some (Text ("Congratulations, you've reached level "
                                        ++ pretty n ++ "!")))
                           None None None) in
        ret (setLevelUpInfo (const None) s)
  | None => ret s
  end.

(** [handleConnect]. *)
Definition handleConnect (s : Component) : M Component :=
  let s1 := setIsConnected (const true) s in
  let! _ := toast (mkProps (Some (Text "NEPHRA Connected"))
                           (Some (Text "Ready to track your hydration."))
                           None None None) in
  let s2 := setHydration (const (mkHydration 0 2500)) s1 in
  let s3 := setBottleLevel (const 750) s2 in
  let s4 := setStreak (const 5) s3 in
  let s5 := setLevel (const 1) s4 in
  let s6 := setXp (const 0) s5 in
  ret (setDrops (const 0) s6).

(** What can happen to a connected dashboard: the interval fires with
    some outcome of [Math.random()], or the level-up effect runs. *)
Inductive Event :=
| Tick (rnd : Q)
| LevelUp.

Definition handle (ev : Event) (s : Component) : M Component :=
  match ev with
  | Tick rnd => ret (if isConnected s then intervalTick rnd s else s)
  | LevelUp => levelUpEffect s
  end.

Fixpoint run (evs : list Event) (s : Component) : M Component :=
  match evs with
  | [] => ret s
  | ev :: evs' => let! s' := handle ev s in run evs' s'
  end.

End Dashboard.

(** ** app/profile/actions.ts *)

Module ProfileActions.

(** [z.infer<typeof ProfileSchema>]. *)
Record Profile := mkProfile {
  name : string;
  age : Q;
  gender : string;
  weight : Q;
  healthConditions : option string
}.

(** The object handed to the flow: [{ ...validatedData, historicalData }]. *)
Record FlowInput := mkFlowInput {
  profile : Profile;
  historicalData : string
}.

(** [HydrationRecommendationsOutput]. *)
Record Recommendation := mkRecommendation {
  goal_ml : Q;
  alert_interval_minutes : Q
}.

Record Sample := mkSample { timestamp : string; amount : Z }.

Definition quoted (s : string) : string :=
  String "034"%char (s ++ String "034"%char EmptyString).

(** [JSON.stringify] on an array of [{ timestamp, amount }] objects. *)
Definition stringify_sample (x : Sample) : string :=
  "{" ++ quoted "timestamp" ++ ":" ++ quoted (timestamp x) ++ ","
      ++ quoted "amount" ++ ":" ++ pretty (amount x) ++ "}".
Definition JSON_stringify (l : list Sample) : string :=
  "[" ++ String.concat "," (map stringify_sample l) ++ "]".

Definition mockHistoricalData : string :=
  JSON_stringify
    [ mkSample "2024-07-28T08:00:00Z" 250;
      mkSample "2024-07-28T10:30:00Z" 300;
      mkSample "2024-07-28T13:00:00Z" 200 ].

Section Action.

(** What arrives over the wire, and what can be thrown. *)
Variable Data : Type.
Variable Error : Type.

(** A call either returns or throws. *)
Inductive Result (A : Type) :=
| Returns (a : A)
| Throws (err : Error).
Arguments Returns {A} a.
Arguments Throws {A} err.

(** [ProfileSchema.parse] (zod) and the remote flow
    [hydrationRecommendations] (Genkit and the hosted model). *)
Variable ProfileSchema_parse : Data -> Result Profile.
Variable hydrationRecommendations : FlowInput -> Result Recommendation.

(** What the action does besides returning. *)
Inductive Effect :=
| FlowCalled (input : FlowInput)
| ConsoleError (label : string) (err : Error).

(** [getHydrationRecommendationAction]; [None] is [null]. *)
Definition getHydrationRecommendationAction (data : Data)
  : option Recommendation * list Effect :=
  match ProfileSchema_parse data with
  | Throws err =>
      (None, [ConsoleError "Error getting hydration recommendation:" err])
  | Returns validatedData =>
      let input := mkFlowInput validatedData mockHistoricalData in
      match hydrationRecommendations input with
      | Throws err =>
          (None, [FlowCalled input;
                  ConsoleError "Error getting hydration recommendation:" err])
      | Returns result => (Some result, [FlowCalled input])
      end
  end.

End Action.

Arguments Returns {Error A} a.
Arguments Throws {Error A} err.
Arguments FlowCalled {Error} input.
Arguments ConsoleError {Error} label err.
Arguments getHydrationRecommendationAction {Data Error}.

End ProfileActions.

(** ** Sample collaborators for the action *)

Module ProfileActionsExample.

Import ProfileActions.

(** A validator that rejects a missing name and a service that is down
    for one user. *)
Definition example_parse (data : option Profile) : Result string Profile :=
  match data with
  | Some p => Returns p
  | None => Throws "Required"
  end.

Definition example_flow (input : FlowInput) : Result string Recommendation :=
  if String.eqb (name (profile input)) "Alan"
  then Throws "503 Service Unavailable"
  else Returns (mkRecommendation 2500 60).

End ProfileActionsExample.

(** ** hooks/use-toast.ts: the hook and its host *)

Module ToastHost.

Import UseToast.

Definition set_listeners (f : list nat -> list nat) (e : Env) : Env :=
  mkEnv (now e) (nextHandle e) (timers e) (toastTimeouts e) (count e)
        (memoryState e) (f (listeners e)) (rendered e).

(** [array.indexOf(x)], [-1] when [x] does not occur. *)
Fixpoint indexOf (x : nat) (l : list nat) : Z :=
  match l with
  | [] => -1
  | y :: l' =>
      if Nat.eqb y x then 0
      else let i := indexOf x l' in if i <? 0 then -1 else i + 1
  end.

(** [array.splice(index, 1)] for an index that is not negative. *)
Definition splice1 (index : Z) (l : list nat) : list nat :=
  delete (Z.to_nat index) l.

(** The effect of [useToast]: [listeners.push(setState)]. *)
Definition subscribe (setState : nat) : M unit :=
  modify (set_listeners (fun ls => (ls ++ [setState])%list)).

(** The cleanup of that effect. *)
Definition unsubscribe (setState : nat) : M unit :=
  let! ls := get listeners in
  let index := indexOf setState ls in
  if -1 <? index then modify (set_listeners (splice1 index)) else ret tt.

(** What the host and the components can do to the store: time passes, a
    timer that is due fires, an action is dispatched, a toast is shown, a
    component subscribes or unsubscribes. *)
Inductive step : Env -> Env -> Prop :=
| step_time e dt : 0 <= dt -> step e (set_now (now e + dt) e)
| step_fire e tm : tm ∈ timers e -> due tm <= now e -> step e (snd (fire tm e))
| step_dispatch e a : step e (snd (dispatch a e))
| step_toast e props : step e (snd (toast props e))
| step_subscribe e l : step e (snd (subscribe l e))
| step_unsubscribe e l : step e (snd (unsubscribe l e)).

Inductive reachable : Env -> Prop :=
| reachable_initial : reachable initial
| reachable_step e e' : reachable e -> step e e' -> reachable e'.

(** The removal queue and the timers of the host agree: handles are
    fresh and distinct, and [toastTimeouts] maps an identifier to a handle
    exactly when a timer with that handle is pending to remove it. *)
Definition queue_in_sync (e : Env) : Prop :=
  (forall tm, tm ∈ timers e -> (handle tm < nextHandle e)%nat) /\
  NoDup (map handle (timers e)) /\
  (forall j h, toastTimeouts e !! j = Some h <->
               exists d, mkTimer h d (RemoveToastLater j) ∈ timers e).

End ToastHost.

(** ** app/profile/[id]/page.tsx *)

Module UserProfilePage.

Import LeaderboardData.

Record View := mkView {
  user : User.t;
  userAchievements : list Unlockable.t;
  hydrationRank : Utils.HydrationRank
}.

Section Page.

(** [parseInt] of the host; [None] is [NaN]. *)
Variable parseInt : string -> option Z.

(** [u.id === parseInt(params.id)]; [NaN] equals nothing. *)
Definition matches (params_id : string) (u : User.t) : bool :=
  match parseInt params_id with
  | Some n => User.id u =? n
  | None => false
  end.

(** [array.find(p)]. *)
Fixpoint find {A} (p : A -> bool) (l : list A) : option A :=
  match l with
  | [] => None
  | x :: l' => if p x then Some x else find p l'
  end.

(** [UserProfilePage], up to the values it renders; [None] is
    [notFound()], which does not return. *)
Definition UserProfilePage (params_id : string) : option View :=
  match find (matches params_id) leaderboardData with
  | None => None
  | Some u =>
      Some (mkView u
                   (default [] (allAchievements !! User.id u))
                   (Utils.getHydrationRank (inject_Z (User.level u))))
  end.

End Page.

End UserProfilePage.

(** ** app/dashboard/dashboard-client.tsx: the values of a render *)

Module DashboardView.

Import Dashboard.

(** [Math.round]. *)
Definition Math_round (x : Q) : Z := Qfloor (x + (1 # 2)).

Definition progress (s : Component) : Q :=
  (inject_Z (current (hydration s)) / inject_Z (goal (hydration s)) * 100)%Q.

Definition waterRemaining (s : Component) : Z :=
  goal (hydration s) - current (hydration s).

(** The value of the XP bar: [(xp / xpToNextLevel) * 100]. *)
Definition xpBar (s : Component) : Q :=
  (inject_Z (xp s) / inject_Z (xpToNextLevel s) * 100)%Q.

(** [Math.round((bottleLevel / 750) * 100)]. *)
Definition bottlePercent (s : Component) : Z :=
  Math_round (inject_Z (bottleLevel s) / 750 * 100)%Q.

(** An outcome of [Math.random()] lies in [0, 1). *)
Definition in_unit_interval (rnd : Q) : Prop := (0 <= rnd)%Q /\ (rnd < 1)%Q.

Definition possible (ev : Event) : Prop :=
  match ev with
  | Tick rnd => in_unit_interval rnd
  | LevelUp => True
  end.

(** What holds of the counters while the simulation runs. *)
Definition consistent (s : Component) : Prop :=
  isConnected s = true /\
  goal (hydration s) = 2500 /\
  0 <= drops s /\
  current (hydration s) = Z.min (10 * drops s) 2500 /\
  bottleLevel s = Z.max 0 (750 - 10 * drops s) /\
  1 <= level s /\
  0 <= xp s < xpToNextLevel s /\
  xp s + 50 * level s * (level s - 1) = 10 * drops s.

End DashboardView.

(** ** app/dashboard/page.tsx *)

Module DashboardPage.

Import ProfileActions.

(** [MotivationInput] of ai/schemas. *)
Record MotivationInput := mkMotivationInput {
  name : string;
  streak : Z;
  progress_percentage : Z
}.

Section Page.

Variable Error : Type.

(** [new Error(message)]. *)
Variable newError : string -> Error.

(** The flow [getMotivation]; it may resolve to [null] ([None]). *)
Variable getMotivation :
  MotivationInput -> Result Error (option Dashboard.MotivationOutput).

(** The message returned when the flow gives nothing; the source ends it
    with two emoji, written here by their UTF-8 bytes. *)
Definition fallback : Dashboard.MotivationOutput :=
  Dashboard.mkMotivation
    ("Let's get hydrated today and keep the streak alive! "
       ++ String "240" (String "159" (String "146" (String "170"
         (String "240" (String "159" (String "146" (String "167"
            EmptyString))))))))
    "Welcome Back!".

Definition motivationInput : MotivationInput :=
  mkMotivationInput "Joan Clarke" 5 0.

(** [getInitialMotivation]: the message and what was written with
    [console.error]. *)
Definition getInitialMotivation
  : Dashboard.MotivationOutput * list (string * Error) :=
  match getMotivation motivationInput with
  | Returns (Some result) => (result, [])
  | Returns None =>
      (fallback,
       [("Error getting initial motivation:",
         newError "getMotivation returned null")])
  | Throws error => (fallback, [("Error getting initial motivation:", error)])
  end.

End Page.

End DashboardPage.

(** ** app/profile/actions.ts: the insights action *)

Module ProfileInsights.

Import ProfileActions.

(** [z.infer<typeof ProfileInsightsInputSchema>]. *)
Record Input := mkInput {
  name : string;
  level : Q;
  hydrationRank : string;
  historicalData : string;
  healthConditions : option string
}.

(** [ProfileInsightsOutput]. *)
Record Output := mkOutput { insight : string }.

Section Action.

Variable Data : Type.
Variable Error : Type.

(** [ProfileInsightsInputSchema.parse] and the flow [getProfileInsights]. *)
Variable ProfileInsightsInputSchema_parse : Data -> Result Error Input.
Variable getProfileInsights : Input -> Result Error Output.

Inductive Effect :=
| InsightsCalled (input : Input)
| ConsoleError (label : string) (err : Error).

(** [getProfileInsightsAction]; [None] is [null]. *)
Definition getProfileInsightsAction (data : Data)
  : option Output * list Effect :=
  match ProfileInsightsInputSchema_parse data with
  | Throws err => (None, [ConsoleError "Error getting profile insights:" err])
  | Returns validatedData =>
      match getProfileInsights validatedData with
      | Throws err =>
          (None, [InsightsCalled validatedData;
                  ConsoleError "Error getting profile insights:" err])
      | Returns result => (Some result, [InsightsCalled validatedData])
      end
  end.

End Action.

Arguments InsightsCalled {Error} input.
Arguments ConsoleError {Error} label err.
Arguments getProfileInsightsAction {Data Error}.

End ProfileInsights.

(** ** app/profile/profile-client.tsx: the developer options *)

Module DeveloperOptions.

Definition events : list string :=
  [ "DRINK_DETECTED amount:150ml"; "BOTTLE_STABLE"; "SYNC_REQUEST";
    "ALERT_TRIGGERED id:3"; "LOW_BATTERY level:15%"; "BOTTLE_IDLE";
    "REFILL_DETECTED"; "GOAL_REACHED" ].

(** [events[Math.floor(Math.random() * events.length)]]. *)
Definition pickEvent (rnd : Q) : option string :=
  Utils.at_index events (Qfloor (rnd * inject_Z (Z.of_nat (length events)))).

(** A value inside a template string; [undefined] prints as such. *)
Definition shown (x : option string) : string := default "undefined" x.

(** The line [`[${time}] ${newEvent}`], [time] being what
    [new Date().toLocaleTimeString()] returned. *)
Definition logLine (time : string) (newEvent : option string) : string :=
  "[" ++ time ++ "] " ++ shown newEvent.

(** The updater of [setEventLog]. *)
Definition pushLog (line : string) (prev : list string) : list string :=
  take 50 (line :: prev).

(** One firing of the event-log interval. *)
Definition logEvent (time : string) (rnd : Q) (prev : list string) : list string :=
  pushLog (logLine time (pickEvent rnd)) prev.

(** [Math.random() * 750]. *)
Definition waterLevel (rnd : Q) : Q := (rnd * 750)%Q.

Record Position := mkPosition { x : Q; y : Q; z : Q }.

(** The accelerometer sample, from three outcomes of [Math.random()]. *)
Definition position (r1 r2 r3 : Q) : Position :=
  mkPosition (r1 * 2 - 1)%Q (r2 * 2 - 1)%Q (r3 * 2 - 1)%Q.

End DeveloperOptions.

(** ** components/layout/bottom-nav.tsx *)

Module BottomNav.

Inductive NavIcon := LayoutDashboard | History | Trophy | User.

Record NavItem := mkNavItem { href : string; label : string; icon : NavIcon }.

Definition navItems : list NavItem :=
  [ mkNavItem "/dashboard" "Dashboard" LayoutDashboard;
    mkNavItem "/timeline" "Timeline" History;
    mkNavItem "/leaderboard" "Leaderboard" Trophy;
    mkNavItem "/profile" "Profile" User ].

(** [pathname === item.href]. *)
Definition isActive (pathname : string) (item : NavItem) : bool :=
  String.eqb pathname (href item).

End BottomNav.

(** ** Vocabulary of the statements *)

Module ToastFacts.

Import UseToast.

(** The identifiers on screen, in order. *)
Definition ids (s : State) : list string := map id (toasts s).

(** [e'] has the clock of [e], every pending timer of [e] and every
    entry of its removal queue. *)
Definition keeps_queue (e e' : Env) : Prop :=
  now e' = now e /\
  (forall tm, tm ∈ timers e -> tm ∈ timers e') /\
  (forall j h, toastTimeouts e !! j = Some h -> toastTimeouts e' !! j = Some h).

(** A [REMOVE_TOAST] of [i] is pending in [e], due at [time]. *)
Definition removal_scheduled (e : Env) (i : string) (time : Z) : Prop :=
  exists h, toastTimeouts e !! i = Some h /\
            mkTimer h time (RemoveToastLater i) ∈ timers e.

End ToastFacts.

(** * Properties *)

(** ** The toast store *)

Section ToastStore.

Import UseToast ToastFacts.

Implicit Types (s : State) (e : Env) (t : ToasterToast) (i : string).

(** Only [DISMISS_TOAST] touches the environment. *)
Lemma reducer_pure s a e :
  (forall x, a <> DISMISS_TOAST x) -> snd (reducer s a e) = e.
Proof.
  destruct a as [t|p|x|[i|]]; intros Hne; try reflexivity.
  now destruct (Hne x).
Qed.

Lemma reducer_add s t e :
  toasts (fst (reducer s (ADD_TOAST t) e)) = [t].
Proof. reflexivity. Qed.

Lemma reducer_update s p e :
  toasts (fst (reducer s (UPDATE_TOAST p) e))
  = map (fun t => if id_is (part_id p) t then spread t p else t) (toasts s).
Proof. reflexivity. Qed.

Lemma reducer_dismiss s x e :
  toasts (fst (reducer s (DISMISS_TOAST x) e))
  = map (fun t => if id_is x t || is_undefined x then close t else t) (toasts s).
Proof.
  unfold reducer, bind.
  destruct (truthy x).
  - now destruct (addToRemoveQueue _ e).
  - now destruct (forEach _ _ e).
Qed.

Lemma reducer_remove_all s e :
  toasts (fst (reducer s (REMOVE_TOAST None) e)) = [].
Proof. reflexivity. Qed.

Lemma reducer_remove_one s i e :
  toasts (fst (reducer s (REMOVE_TOAST (Some i)) e))
  = filter (fun t => id t <> i) (toasts s).
Proof. reflexivity. Qed.

Lemma id_is_true x t : id_is x t = true <-> x = Some (id t).
Proof.
  destruct x as [i|]; simpl.
  - rewrite String.eqb_eq. split; congruence.
  - split; discriminate.
Qed.

Lemma id_spread t p : id_is (part_id p) t = true -> id (spread t p) = id t.
Proof. intros H%id_is_true. unfold spread; simpl. now rewrite H. Qed.

Lemma id_close t : id (close t) = id t.
Proof. reflexivity. Qed.

(** Updating and dismissing keep the identifiers, position by position. *)
Lemma ids_update s p e :
  map id (toasts (fst (reducer s (UPDATE_TOAST p) e))) = map id (toasts s).
Proof.
  rewrite reducer_update, map_map. apply map_ext. intros t.
  destruct (id_is (part_id p) t) eqn:E; [now apply id_spread | reflexivity].
Qed.

Lemma ids_dismiss s x e :
  map id (toasts (fst (reducer s (DISMISS_TOAST x) e))) = map id (toasts s).
Proof.
  rewrite reducer_dismiss, map_map. apply map_ext. intros t.
  now destruct (id_is x t || is_undefined x).
Qed.

(** *** The removal queue *)

Lemma keeps_queue_refl e : keeps_queue e e.
Proof. now repeat split. Qed.

Lemma keeps_queue_trans e1 e2 e3 :
  keeps_queue e1 e2 -> keeps_queue e2 e3 -> keeps_queue e1 e3.
Proof.
  intros (Hn & Ht & Hq) (Hn' & Ht' & Hq'). repeat split.
  - congruence.
  - auto.
  - auto.
Qed.

Lemma addToRemoveQueue_pending i e :
  is_Some (toastTimeouts e !! i) -> snd (addToRemoveQueue i e) = e.
Proof.
  intros [h Hh]. unfold addToRemoveQueue, bind, get; simpl. now rewrite Hh.
Qed.

Lemma addToRemoveQueue_fresh i e :
  toastTimeouts e !! i = None ->
  snd (addToRemoveQueue i e)
  = mkEnv (now e) (S (nextHandle e))
          (timers e ++ [mkTimer (nextHandle e) (now e + TOAST_REMOVE_DELAY)
                                (RemoveToastLater i)])
          (<[i := nextHandle e]> (toastTimeouts e))
          (count e) (memoryState e) (listeners e) (rendered e).
Proof.
  intros Hn. unfold addToRemoveQueue, bind, get; simpl. now rewrite Hn.
Qed.

Lemma addToRemoveQueue_keeps i e : keeps_queue e (snd (addToRemoveQueue i e)).
Proof.
  destruct (toastTimeouts e !! i) as [h|] eqn:E.
  - rewrite addToRemoveQueue_pending by eauto. apply keeps_queue_refl.
  - rewrite addToRemoveQueue_fresh by assumption. repeat split; simpl.
    + intros tm Htm. apply elem_of_app. now left.
    + intros j h Hj. rewrite lookup_insert_ne; [assumption | congruence].
Qed.

Lemma addToRemoveQueue_other i j e :
  i <> j ->
  toastTimeouts (snd (addToRemoveQueue i e)) !! j = toastTimeouts e !! j.
Proof.
  intros Hne. destruct (toastTimeouts e !! i) as [h|] eqn:E.
  - now rewrite addToRemoveQueue_pending by eauto.
  - rewrite addToRemoveQueue_fresh by assumption; simpl.
    now rewrite lookup_insert_ne.
Qed.

Lemma addToRemoveQueue_schedules i e :
  is_Some (toastTimeouts (snd (addToRemoveQueue i e)) !! i) /\
  (toastTimeouts e !! i = None ->
   removal_scheduled (snd (addToRemoveQueue i e)) i (now e + TOAST_REMOVE_DELAY)).
Proof.
  destruct (toastTimeouts e !! i) as [h|] eqn:E.
  - rewrite addToRemoveQueue_pending by eauto. split; [eauto | discriminate].
  - rewrite addToRemoveQueue_fresh by assumption; simpl. split.
    + rewrite lookup_insert_eq. eauto.
    + intros _. exists (nextHandle e); simpl. split.
      * apply lookup_insert_eq.
      * apply elem_of_app. right. apply list_elem_of_singleton. reflexivity.
Qed.

Lemma removal_scheduled_keeps e e' i time :
  keeps_queue e e' -> removal_scheduled e i time -> removal_scheduled e' i time.
Proof.
  intros (_ & Ht & Hq) (h & Hh & Hin). exists h. auto.
Qed.

Lemma forEach_cons {A} (f : A -> M unit) x l e :
  forEach f (x :: l) e = forEach f l (snd (f x e)).
Proof. simpl. unfold bind. now destruct (f x e). Qed.

Lemma forEach_queue_keeps l e :
  keeps_queue e (snd (forEach (fun t => addToRemoveQueue (id t)) l e)).
Proof.
  revert e. induction l as [|x l IH]; intros e.
  - apply keeps_queue_refl.
  - rewrite forEach_cons. eapply keeps_queue_trans; [|apply IH].
    apply addToRemoveQueue_keeps.
Qed.

Lemma forEach_queue_schedules l e t :
  t ∈ l ->
  let e' := snd (forEach (fun t => addToRemoveQueue (id t)) l e) in
  is_Some (toastTimeouts e' !! id t) /\
  (toastTimeouts e !! id t = None ->
   removal_scheduled e' (id t) (now e + TOAST_REMOVE_DELAY)).
Proof.
  revert e. induction l as [|x l IH]; intros e Hin; cbv zeta.
  - now apply elem_of_nil in Hin.
  - rewrite forEach_cons.
    pose proof (addToRemoveQueue_keeps (id x) e) as Hk1.
    pose proof (forEach_queue_keeps l (snd (addToRemoveQueue (id x) e))) as Hk2.
    destruct (decide (id x = id t)) as [Heq|Hne].
    + destruct (addToRemoveQueue_schedules (id x) e) as [[h Hh] Hs].
      rewrite <- Heq. split.
      * exists h. now apply Hk2.
      * intros Hn. eapply removal_scheduled_keeps; eauto.
    + apply elem_of_cons in Hin as [->|Hin]; [congruence|].
      destruct (IH (snd (addToRemoveQueue (id x) e)) Hin) as [Hs Hr].
      split; [exact Hs|]. intros Hn.
      destruct Hk1 as (Hnow & _). rewrite <- Hnow. apply Hr.
      now rewrite addToRemoveQueue_other.
Qed.

(** *** Dispatching *)

Lemma notify_memoryState s' ls e :
  memoryState (snd (forEach (fun l => modify (set_rendered (insert l s'))) ls e))
  = memoryState e
  /\ toastTimeouts (snd (forEach (fun l => modify (set_rendered (insert l s'))) ls e))
    = toastTimeouts e.
Proof.
  revert e. induction ls as [|l ls IH]; intros e; [easy|].
  rewrite forEach_cons. simpl. now rewrite !(proj1 (IH _)), !(proj2 (IH _)).
Qed.

Lemma dispatch_memoryState a e :
  memoryState (snd (dispatch a e)) = fst (reducer (memoryState e) a e).
Proof.
  unfold dispatch, bind, get, modify; simpl.
  destruct (reducer (memoryState e) a e) as [s' e1]; simpl.
  now rewrite (proj1 (notify_memoryState s' (listeners e1) _)).
Qed.

Lemma dispatch_toastTimeouts a e :
  toastTimeouts (snd (dispatch a e))
  = toastTimeouts (snd (reducer (memoryState e) a e)).
Proof.
  unfold dispatch, bind, get, modify; simpl.
  destruct (reducer (memoryState e) a e) as [s' e1]; simpl.
  now rewrite (proj2 (notify_memoryState s' (listeners e1) _)).
Qed.

Lemma fire_removes tm i e :
  callback tm = RemoveToastLater i ->
  toasts (memoryState (snd (fire tm e)))
  = filter (fun t => id t <> i) (toasts (memoryState e))
  /\ toastTimeouts (snd (fire tm e)) !! i = None.
Proof.
  intros Hcb. unfold fire, run_callback, bind, modify; simpl. rewrite Hcb.
  split.
  - now rewrite dispatch_memoryState.
  - rewrite dispatch_toastTimeouts; simpl. apply lookup_delete_eq.
Qed.

Lemma notify_only_rendered s' ls e :
  exists r,
    snd (forEach (fun l => modify (set_rendered (insert l s'))) ls e)
    = set_rendered (fun _ => r) e.
Proof.
  revert e. induction ls as [|l ls IH]; intros e.
  - exists (rendered e). now destruct e.
  - rewrite forEach_cons. simpl.
    destruct (IH (set_rendered (insert l s') e)) as [r Hr].
    exists r. now rewrite Hr.
Qed.

(** Every action but [DISMISS_TOAST] changes [memoryState] and what the
    listeners hold, and nothing else. *)
Lemma dispatch_pure a e :
  (forall x, a <> DISMISS_TOAST x) ->
  exists r,
    snd (dispatch a e)
    = set_rendered (fun _ => r)
        (set_memoryState (fst (reducer (memoryState e) a e)) e).
Proof.
  intros Hne. pose proof (reducer_pure (memoryState e) a e Hne) as Hp.
  unfold dispatch, bind, get, modify; simpl.
  destruct (reducer (memoryState e) a e) as [s' e1]; simpl in *. subst e1.
  apply notify_only_rendered.
Qed.

(** [toast] draws the next identifier and leaves the new toast alone on
    screen, open, with a handler that dismisses it. *)
Lemma toast_shows props e :
  let c' := Z.rem (count e + 1) MAX_SAFE_INTEGER in
  exists r,
    toast props e
    = (pretty c',
       mkEnv (now e) (nextHandle e) (timers e) (toastTimeouts e) c'
             (mkState [mkToast (pretty c') (props_title props)
                               (props_description props) (props_action props)
                               (Some true)
                               (Some (DismissWhenClosed (pretty c')))])
             (listeners e) r).
Proof.
  cbv zeta. unfold toast, bind, genId, get, modify; simpl.
  set (c' := Z.rem (count e + 1) MAX_SAFE_INTEGER).
  set (t := mkToast (pretty c') _ _ _ _ _).
  destruct (dispatch_pure (ADD_TOAST t) (set_count c' e)) as [r Hr];
    [discriminate|].
  destruct (dispatch (ADD_TOAST t) (set_count c' e)) as [u e1]; simpl in *.
  subst e1. exists r. reflexivity.
Qed.

Lemma targeted_iff x t :
  id_is x t || is_undefined x = true <-> x = None \/ x = Some (id t).
Proof.
  rewrite orb_true_iff, id_is_true. destruct x; simpl; intuition congruence.
Qed.

(** *** The claims about the reducer *)

(** C1. A state with at most [TOAST_LIMIT] = 1 toasts is taken by every
    action to a state with at most one toast, and after [ADD_TOAST] the
    list is exactly the toast just added. *)
Theorem reducer_keeps_toast_limit s a e :
  (length (toasts s) <= TOAST_LIMIT)%nat ->
  TOAST_LIMIT = 1%nat /\
  (length (toasts (fst (reducer s a e))) <= TOAST_LIMIT)%nat /\
  (forall t, a = ADD_TOAST t -> toasts (fst (reducer s a e)) = [t]).
Proof.
  intros Hlen. split; [reflexivity|]. split.
  - destruct a as [t|p|x|[i|]].
    + rewrite reducer_add. unfold TOAST_LIMIT. simpl. lia.
    + rewrite reducer_update, length_map. exact Hlen.
    + rewrite reducer_dismiss, length_map. exact Hlen.
    + rewrite reducer_remove_one.
      etransitivity; [apply length_filter | exact Hlen].
    + rewrite reducer_remove_all. simpl. lia.
  - intros t ->. apply reducer_add.
Qed.

Lemma reducer_keeps_toast_limit_witness :
  let t1 := mkToast "1" (Some (Text "Level Up!")) None None (Some true)
                    (Some (DismissWhenClosed "1")) in
  let t2 := mkToast "2" (Some (Text "Sync Complete")) None None (Some true)
                    (Some (DismissWhenClosed "2")) in
  (length (toasts (mkState [t1])) <= TOAST_LIMIT)%nat /\
  toasts (fst (reducer (mkState [t1]) (ADD_TOAST t2) initial)) = [t2].
Proof.
  intros t1 t2.
  assert (H : (length (toasts (mkState [t1])) <= TOAST_LIMIT)%nat)
    by (unfold TOAST_LIMIT; simpl; lia).
  split; [exact H|].
  exact (proj2 (proj2 (reducer_keeps_toast_limit
                         (mkState [t1]) (ADD_TOAST t2) initial H))
               t2 eq_refl).
Defined.

(** C10. [REMOVE_TOAST] without an identifier empties the list; with an
    identifier it drops exactly the toasts carrying it and keeps the
    others, unchanged and in order. It has no effect on the queue. *)
Theorem reducer_remove_toast s e :
  toasts (fst (reducer s (REMOVE_TOAST None) e)) = [] /\
  (forall i,
      toasts (fst (reducer s (REMOVE_TOAST (Some i)) e))
      = filter (fun t => id t <> i) (toasts s) /\
      (forall t, t ∈ toasts (fst (reducer s (REMOVE_TOAST (Some i)) e))
                 <-> t ∈ toasts s /\ id t <> i) /\
      sublist (toasts (fst (reducer s (REMOVE_TOAST (Some i)) e))) (toasts s)) /\
  (forall x, snd (reducer s (REMOVE_TOAST x) e) = e).
Proof.
  split; [apply reducer_remove_all|]. split.
  - intros i. rewrite reducer_remove_one. split; [reflexivity|]. split.
    + intros t. rewrite list_elem_of_filter. tauto.
    + apply sublist_filter.
  - intros x. now apply reducer_pure.
Qed.

Lemma reducer_dismiss_queue s x e t :
  t ∈ toasts s -> x = None \/ x = Some (id t) ->
  let e' := snd (reducer s (DISMISS_TOAST x) e) in
  is_Some (toastTimeouts e' !! id t) /\
  (toastTimeouts e !! id t = None ->
   removal_scheduled e' (id t) (now e + TOAST_REMOVE_DELAY)).
Proof.
  intros Hin Hx. cbv zeta. unfold reducer, bind.
  destruct (truthy x) eqn:Htr.
  - destruct x as [i|]; [|discriminate]. destruct Hx as [Hx|Hx]; [discriminate|].
    injection Hx as ->. simpl.
    pose proof (addToRemoveQueue_schedules (id t) e) as Hs.
    now destruct (addToRemoveQueue (id t) e).
  - pose proof (forEach_queue_schedules (toasts s) e t Hin) as Hs.
    cbv zeta in Hs.
    now destruct (forEach (fun toast => addToRemoveQueue (id toast)) (toasts s) e).
Qed.

Lemma reducer_dismiss_keeps_queue s x e :
  keeps_queue e (snd (reducer s (DISMISS_TOAST x) e)).
Proof.
  unfold reducer, bind. destruct (truthy x).
  - pose proof (addToRemoveQueue_keeps (default EmptyString x) e) as Hk.
    now destruct (addToRemoveQueue _ e).
  - pose proof (forEach_queue_keeps (toasts s) e) as Hk.
    now destruct (forEach (fun toast => addToRemoveQueue (id toast)) (toasts s) e).
Qed.

Lemma leaves_by_add_or_remove s a e i :
  i ∈ ids s -> i ∉ ids (fst (reducer s a e)) ->
  (exists t, a = ADD_TOAST t) \/ (exists y, a = REMOVE_TOAST y).
Proof.
  intros Hin Hout. destruct a as [t|p|x|y]; eauto.
  - destruct Hout. unfold ids. now rewrite ids_update.
  - destruct Hout. unfold ids. now rewrite ids_dismiss.
Qed.

(** C2, as the code has it. [DISMISS_TOAST] keeps the length of the list
    and the identifiers in it; a toast that is targeted (its [id] is the
    given [toastId], or no [toastId] is given) is returned with [open]
    set to [false] and every other field as before, and the other toasts
    are returned as they were. Afterwards a removal is pending for every
    targeted toast, and it is due [TOAST_REMOVE_DELAY] ms after the
    dismissal when none was pending for that identifier before; what was
    pending before stays pending. The timer, once fired, dispatches
    [REMOVE_TOAST] for the identifier. A toast leaves the list only
    through a [REMOVE_TOAST] or through an [ADD_TOAST], which displaces it
    under the limit of one. *)
Theorem dismiss_closes_and_queues_removal s x e :
  let s' := fst (reducer s (DISMISS_TOAST x) e) in
  let e' := snd (reducer s (DISMISS_TOAST x) e) in
  length (toasts s') = length (toasts s) /\
  ids s' = ids s /\
  (forall n t, toasts s !! n = Some t ->
     (x = None \/ x = Some (id t) ->
      toasts s' !! n
      = Some (mkToast (id t) (title t) (description t) (action t)
                      (Some false) (onOpenChange t))) /\
     (~ (x = None \/ x = Some (id t)) -> toasts s' !! n = Some t)) /\
  (forall t, t ∈ toasts s -> x = None \/ x = Some (id t) ->
     is_Some (toastTimeouts e' !! id t) /\
     (toastTimeouts e !! id t = None ->
      removal_scheduled e' (id t) (now e + TOAST_REMOVE_DELAY))) /\
  keeps_queue e e' /\
  (forall tm i e1, callback tm = RemoveToastLater i ->
     toasts (memoryState (snd (fire tm e1)))
     = filter (fun t => id t <> i) (toasts (memoryState e1))) /\
  (forall s0 a e0 i,
     i ∈ ids s0 -> i ∉ ids (fst (reducer s0 a e0)) ->
     (exists t, a = ADD_TOAST t) \/ (exists y, a = REMOVE_TOAST y)).
Proof.
  cbv zeta. split; [|split; [|split; [|split; [|split; [|split]]]]].
  - now rewrite reducer_dismiss, length_map.
  - apply ids_dismiss.
  - intros n t Hn. rewrite reducer_dismiss, list_lookup_fmap, Hn. simpl.
    pose proof (targeted_iff x t) as Ht.
    destruct (id_is x t || is_undefined x); split; intros Hx.
    + reflexivity.
    + destruct Hx. now apply Ht.
    + apply Ht in Hx. discriminate.
    + reflexivity.
  - intros t Hin Hx. now apply reducer_dismiss_queue.
  - apply reducer_dismiss_keeps_queue.
  - intros tm i e1 Hcb. now apply fire_removes.
  - apply leaves_by_add_or_remove.
Qed.

Lemma dismiss_closes_and_queues_removal_witness :
  let t1 := mkToast "1" (Some (Text "Level Up!")) None None (Some true)
                    (Some (DismissWhenClosed "1")) in
  toasts (fst (reducer (mkState [t1]) (DISMISS_TOAST (Some "1")) initial))
  = [mkToast "1" (Some (Text "Level Up!")) None None (Some false)
             (Some (DismissWhenClosed "1"))] /\
  removal_scheduled
    (snd (reducer (mkState [t1]) (DISMISS_TOAST (Some "1")) initial))
    "1" 1000000.
Proof.
  intros t1.
  destruct (dismiss_closes_and_queues_removal
              (mkState [t1]) (Some "1") initial)
    as (_ & _ & _ & Hq & _ & _ & _).
  split; [reflexivity|].
  refine (proj2 (Hq t1 _ _) eq_refl).
  - apply elem_of_cons. left. reflexivity.
  - right. reflexivity.
Defined.

(** C2 as it is worded fails in two places. A dismissed toast leaves the
    list when the next toast is added, with no [REMOVE_TOAST] in between;
    and dismissing a toast for which a removal is already pending
    schedules nothing, so no removal is due [TOAST_REMOVE_DELAY] ms after
    that dismissal. *)
Lemma dismissed_toast_leaves_by_add :
  let p1 := mkProps (Some (Text "Syncing Data...")) None None None None in
  let p2 := mkProps (Some (Text "Sync Complete")) None None None None in
  let e0 := snd (toast p1 initial) in
  let e1 := snd (dismiss "1" e0) in
  let e2 := snd (toast p2 e1) in
  let e1' := snd (dismiss "1" (set_now 5 e1)) in
  (ids (memoryState e0) = ["1"] /\ ids (memoryState e1) = ["1"] /\
   ids (memoryState e2) = ["2"] /\
   timers e2 = [mkTimer 0 1000000 (RemoveToastLater "1")]) /\
  (timers e1' = [mkTimer 0 1000000 (RemoveToastLater "1")] /\
   now (set_now 5 e1) + TOAST_REMOVE_DELAY = 1000005 /\
   ~ removal_scheduled e1' "1" (now (set_now 5 e1) + TOAST_REMOVE_DELAY)) /\
  ~ (forall s a e i,
        i ∈ ids s -> i ∉ ids (fst (reducer s a e)) ->
        exists y, a = REMOVE_TOAST y) /\
  ~ (forall s x e t,
        t ∈ toasts s -> id_is x t = true ->
        removal_scheduled (snd (reducer s (DISMISS_TOAST x) e))
                          (id t) (now e + TOAST_REMOVE_DELAY)).
Proof.
  intros p1 p2 e0 e1 e2 e1'.
  assert (Hno : ~ removal_scheduled e1' "1"
                  (now (set_now 5 e1) + TOAST_REMOVE_DELAY)).
  { intros (h & _ & Hin). vm_compute in Hin.
    apply list_elem_of_singleton in Hin. discriminate. }
  split; [repeat split; vm_compute; reflexivity|].
  split; [repeat split; try (vm_compute; reflexivity); exact Hno|]. split.
  - intros H.
    destruct (H (memoryState e1)
                (ADD_TOAST (mkToast "2" (Some (Text "Sync Complete")) None None
                                    (Some true) (Some (DismissWhenClosed "2"))))
                e1 "1") as [y Hy].
    + vm_compute. apply elem_of_cons. left. reflexivity.
    + intros Hin. vm_compute in Hin.
      apply list_elem_of_singleton in Hin. discriminate.
    + discriminate.
  - intros H. apply Hno.
    pose proof (H (memoryState (set_now 5 e1)) (Some "1") (set_now 5 e1)
                  (mkToast "1" (Some (Text "Syncing Data...")) None None
                           (Some false) (Some (DismissWhenClosed "1")))) as H1.
    destruct H1 as (h & Hh & Hin).
    + vm_compute. apply elem_of_cons. left. reflexivity.
    + reflexivity.
    + vm_compute in Hin. apply list_elem_of_singleton in Hin. discriminate.
Qed.

End ToastStore.

(** ** The rank table *)

Section RankTable.

Import Utils.

Implicit Types (lvl : Q) (r : Rank).

Lemma reached_iff lvl r : reached lvl r = true <-> (inject_Z (level r) <= lvl)%Q.
Proof. apply Qle_bool_iff. Qed.

Lemma reached_equal l1 l2 r : (l1 == l2)%Q -> reached l1 r = reached l2 r.
Proof. intros H. unfold reached. now rewrite H. Qed.

Lemma reached_threshold lvl r r' :
  level r <= level r' -> reached lvl r' = true -> reached lvl r = true.
Proof.
  rewrite !reached_iff. intros Hle Hr'.
  apply Qle_trans with (inject_Z (level r')); [|exact Hr'].
  now rewrite <- Zle_Qle.
Qed.

(** The table is sorted by threshold. *)
Lemma ranks_sorted : StronglySorted (fun r r' => level r <= level r') ranks.
Proof.
  unfold ranks.
  repeat (apply SSorted_cons;
          [| repeat (constructor; [simpl; lia|]); constructor]).
  apply SSorted_nil.
Qed.

(** On a sorted table, the loop started from a reached entry ends on the
    reached entry with the highest threshold. *)
Lemma scan_highest lvl rest cur :
  StronglySorted (fun r r' => level r <= level r') (cur :: rest) ->
  reached lvl cur = true ->
  scan lvl cur rest ∈ cur :: rest /\
  reached lvl (scan lvl cur rest) = true /\
  (forall r', r' ∈ cur :: rest -> reached lvl r' = true ->
              level r' <= level (scan lvl cur rest)).
Proof.
  revert cur. induction rest as [|r rest IH]; intros cur Hs Hcur; simpl.
  - split; [apply elem_of_cons; now left|]. split; [exact Hcur|].
    intros r' Hin _. apply list_elem_of_singleton in Hin as ->. lia.
  - apply StronglySorted_inv in Hs as [Hs Hall].
    destruct (reached lvl r) eqn:Hr.
    + destruct (IH r Hs Hr) as (Hin & Hreach & Hmax).
      split; [apply elem_of_cons; now right|]. split; [exact Hreach|].
      intros r' Hin' Hr'. apply elem_of_cons in Hin' as [->|Hin'].
      * apply Forall_inv in Hall.
        specialize (Hmax r (proj2 (elem_of_cons _ _ _) (or_introl eq_refl)) Hr).
        lia.
      * now apply Hmax.
    + split; [apply elem_of_cons; now left|]. split; [exact Hcur|].
      intros r' Hin' Hr'. apply elem_of_cons in Hin' as [->|Hin']; [lia|].
      assert (level r <= level r') as Hle.
      { apply elem_of_cons in Hin' as [->|Hin']; [lia|].
        apply StronglySorted_inv in Hs as [_ Hall'].
        rewrite Forall_forall in Hall'. now apply Hall'. }
      rewrite (reached_threshold lvl r r' Hle Hr') in Hr. discriminate.
Qed.

Lemma scan_in lvl rest cur : scan lvl cur rest ∈ cur :: rest.
Proof.
  revert cur. induction rest as [|r rest IH]; intros cur; simpl.
  - apply elem_of_cons. now left.
  - destruct (reached lvl r).
    + apply elem_of_cons. right. apply IH.
    + apply elem_of_cons. now left.
Qed.

Lemma scan_all_reached lvl rest cur :
  Forall (fun r => reached lvl r = true) rest ->
  scan lvl cur rest = default cur (last rest).
Proof.
  revert cur. induction rest as [|r rest IH]; intros cur Hall; [reflexivity|].
  apply Forall_cons_1 in Hall as [Hr Hall]. simpl scan. rewrite Hr.
  rewrite (IH r Hall), last_cons. now destruct (last rest).
Qed.

Lemma scan_equal l1 l2 rest cur :
  (l1 == l2)%Q -> scan l1 cur rest = scan l2 cur rest.
Proof.
  intros H. revert cur. induction rest as [|r rest IH]; intros cur; simpl.
  - reflexivity.
  - rewrite (reached_equal l1 l2 r H). now rewrite IH.
Qed.

Lemma rank_is_scan lvl :
  rank (getHydrationRank lvl)
  = name (scan lvl (nth 0 ranks (mkRank 0 EmptyString)) ranks).
Proof.
  unfold getHydrationRank. now destruct (at_index ranks _).
Qed.

Lemma below_first lvl :
  (lvl < 1)%Q ->
  getHydrationRank lvl
  = mkHydrationRank "Trainee" "Scout"
      (((lvl - inject_Z 1) / (inject_Z 5 - inject_Z 1)) * 100)%Q.
Proof.
  intros Hlt.
  assert (reached lvl (mkRank 1 "Trainee") = false) as Hr.
  { destruct (reached lvl (mkRank 1 "Trainee")) eqn:E; [|reflexivity].
    apply reached_iff in E. simpl in E. unfold inject_Z in E. lra. }
  unfold getHydrationRank, ranks. simpl scan. rewrite Hr. reflexivity.
Qed.

Lemma at_or_above_last lvl :
  (50 <= lvl)%Q ->
  getHydrationRank lvl = mkHydrationRank "Poseidon's Chosen" "Max Rank" 100%Q.
Proof.
  intros Hle.
  assert (Forall (fun r => reached lvl r = true) ranks) as Hall.
  { assert (Forall (fun r => level r <= 50) ranks) as Hb
      by (unfold ranks; repeat (constructor; [simpl; lia|]); constructor).
    eapply Forall_impl; [exact Hb|]. intros r Hr. apply reached_iff.
    apply Qle_trans with (inject_Z 50); [now rewrite <- Zle_Qle | exact Hle]. }
  unfold getHydrationRank. rewrite (scan_all_reached lvl ranks _ Hall).
  reflexivity.
Qed.

(** C3, as the code has it. The table is the fixed list of nine entries.
    For a level of at least 1 the returned [rank] is the name of the entry
    with the largest threshold that does not exceed the level; below 1 no
    threshold is reached and the rank is the first entry, Trainee. The
    rank depends on the numeric value of the level only. *)
Theorem rank_is_highest_threshold_reached lvl :
  map (fun r => (name r, level r)) ranks
  = [ ("Trainee", 1); ("Scout", 5); ("Adept", 10); ("Hydrator", 15);
      ("Hydro-Hero", 20); ("Aqua-Knight", 25); ("Master", 30);
      ("Hydration Lord", 40); ("Poseidon's Chosen", 50) ] /\
  ((1 <= lvl)%Q ->
   exists r,
     r ∈ ranks /\ (inject_Z (level r) <= lvl)%Q /\
     (forall r', r' ∈ ranks -> (inject_Z (level r') <= lvl)%Q ->
                 level r' <= level r) /\
     rank (getHydrationRank lvl) = name r) /\
  ((lvl < 1)%Q -> rank (getHydrationRank lvl) = "Trainee") /\
  (forall lvl', (lvl == lvl')%Q ->
                rank (getHydrationRank lvl) = rank (getHydrationRank lvl')).
Proof.
  split; [reflexivity|]. split; [|split].
  - intros Hle.
    assert (reached lvl (mkRank 1 "Trainee") = true) as Hfirst
      by (apply reached_iff; exact Hle).
    set (first := mkRank 1 "Trainee") in *.
    assert (scan lvl (nth 0 ranks (mkRank 0 EmptyString)) ranks
            = scan lvl first (tail ranks)) as Hstart.
    { change (scan lvl (nth 0 ranks (mkRank 0 EmptyString)) ranks)
        with (if reached lvl first then scan lvl first (tail ranks) else first).
      now rewrite Hfirst. }
    destruct (scan_highest lvl (tail ranks) first ranks_sorted Hfirst)
      as (Hin & Hreach & Hmax).
    exists (scan lvl first (tail ranks)).
    rewrite rank_is_scan, Hstart. repeat split.
    + exact Hin.
    + now apply reached_iff.
    + intros r' Hr' Hle'. apply Hmax; [exact Hr'|]. now apply reached_iff.
  - intros Hlt. now rewrite below_first.
  - intros lvl' Heq. rewrite !rank_is_scan. f_equal. now apply scan_equal.
Qed.

Lemma rank_is_highest_threshold_reached_witness :
  (1 <= 12)%Q /\
  exists r,
    r ∈ ranks /\ (inject_Z (level r) <= 12)%Q /\
    rank (getHydrationRank 12) = name r.
Proof.
  assert (H : (1 <= 12)%Q) by (unfold Qle; simpl; lia).
  split; [exact H|].
  destruct (proj1 (proj2 (rank_is_highest_threshold_reached 12)) H)
    as (r & Hin & Hle & Hmax & Hrank).
  exists r. split; [exact Hin|]. split; [exact Hle | exact Hrank].
Defined.

(** C3 as it is worded fails below the first threshold: at level 0 no
    entry of the table has a threshold that does not exceed the level, and
    the function still returns a rank. *)
Lemma rank_below_first_threshold :
  rank (getHydrationRank 0) = "Trainee" /\
  ~ (exists r, r ∈ ranks /\ (inject_Z (level r) <= 0)%Q /\
               rank (getHydrationRank 0) = name r) /\
  ~ (forall lvl, exists r,
        r ∈ ranks /\ (inject_Z (level r) <= lvl)%Q /\
        (forall r', r' ∈ ranks -> (inject_Z (level r') <= lvl)%Q ->
                    level r' <= level r) /\
        rank (getHydrationRank lvl) = name r).
Proof.
  assert (forall r, r ∈ ranks -> ~ (inject_Z (level r) <= 0)%Q) as Hnone.
  { intros r Hin Hle. change 0%Q with (inject_Z 0) in Hle.
    rewrite <- Zle_Qle in Hle. unfold ranks in Hin.
    repeat (apply elem_of_cons in Hin as [->|Hin]; [simpl in Hle; lia|]).
    now apply elem_of_nil in Hin. }
  split; [reflexivity|]. split.
  - intros (r & Hin & Hle & _). exact (Hnone r Hin Hle).
  - intros H. destruct (H 0%Q) as (r & Hin & Hle & _). exact (Hnone r Hin Hle).
Qed.

(** C9. The function is defined on every level and always answers with a
    rank of the table. From level 50 on it returns the last rank,
    "Max Rank" as the next one and a progress of exactly 100. Below level 1
    it returns Trainee with the progress [(level - 1) / 4 * 100], which is
    strictly negative: the low end is not clamped. *)
Theorem rank_at_both_ends lvl :
  (exists r, r ∈ ranks /\ rank (getHydrationRank lvl) = name r) /\
  ((50 <= lvl)%Q ->
   getHydrationRank lvl
   = mkHydrationRank "Poseidon's Chosen" "Max Rank" 100%Q) /\
  ((lvl < 1)%Q ->
   rank (getHydrationRank lvl) = "Trainee" /\
   (progress (getHydrationRank lvl) == (lvl - 1) / 4 * 100)%Q /\
   (progress (getHydrationRank lvl) < 0)%Q).
Proof.
  split; [|split].
  - exists (scan lvl (nth 0 ranks (mkRank 0 EmptyString)) ranks).
    split; [|apply rank_is_scan].
    pose proof (scan_in lvl ranks (nth 0 ranks (mkRank 0 EmptyString))) as Hin.
    apply elem_of_cons in Hin as [->|Hin]; [|exact Hin].
    apply elem_of_cons. now left.
  - apply at_or_above_last.
  - intros Hlt. rewrite below_first by exact Hlt. simpl.
    split; [reflexivity|].
    assert (((lvl - inject_Z 1) / (inject_Z 5 - inject_Z 1) * 100
             == (lvl - 1) / 4 * 100)%Q) as Heq by reflexivity.
    split; [exact Heq|]. rewrite Heq.
    unfold Qdiv. change (/ 4)%Q with (1 # 4)%Q. lra.
Qed.

Lemma rank_at_both_ends_witness :
  ((50 <= 64)%Q /\
   getHydrationRank 64
   = mkHydrationRank "Poseidon's Chosen" "Max Rank" 100%Q) /\
  ((-3 < 1)%Q /\
   rank (getHydrationRank (-3)) = "Trainee" /\
   (progress (getHydrationRank (-3)) < 0)%Q).
Proof.
  assert (H1 : (50 <= 64)%Q) by (unfold Qle; simpl; lia).
  assert (H2 : (-3 < 1)%Q) by (unfold Qlt; simpl; lia).
  split.
  - split; [exact H1|]. exact (proj1 (proj2 (rank_at_both_ends 64)) H1).
  - split; [exact H2|].
    destruct (proj2 (proj2 (rank_at_both_ends (-3))) H2) as (Hr & _ & Hp).
    split; [exact Hr | exact Hp].
Defined.

End RankTable.

(** ** The achievements of the mock leaderboard *)

Section Achievements.

Import LeaderboardData.

Lemma unlock_same_id u u' a : User.id u = User.id u' -> unlock u a = unlock u' a.
Proof. intros H. unfold unlock, unlocked. now rewrite H. Qed.

(** After the [reduce], the entry of a user of the list is the master list
    mapped with that user's formula, whatever came before in [acc]. *)
Lemma reduce_lookup (users : list User.t) acc u :
  u ∈ users ->
  foldl assign acc users !! User.id u
  = Some (map (unlock u) allAchievementsList).
Proof.
  induction users as [|x users IH] using rev_ind; intros Hin.
  - now apply elem_of_nil in Hin.
  - rewrite foldl_snoc. unfold assign at 1.
    destruct (decide (User.id x = User.id u)) as [Heq|Hne].
    + rewrite Heq, lookup_insert_eq. f_equal. apply map_ext.
      intros a. now apply unlock_same_id.
    + rewrite lookup_insert_ne by exact Hne.
      apply elem_of_app in Hin as [Hin|Hin]; [now apply IH|].
      apply list_elem_of_singleton in Hin. congruence.
Qed.

(** C7. For every user of [leaderboardData] and every achievement of the
    master list, which has 28 entries, [allAchievements[u.id]] is a list of
    28 entries that contains the achievement with [achieved] equal to
    [(a.id * 3 + u.id * 5) % 10 > 3]. The table is a constant: no random
    choice enters it. *)
Theorem achievements_follow_formula u a :
  u ∈ leaderboardData -> a ∈ allAchievementsList ->
  length allAchievementsList = 28%nat /\
  exists l,
    allAchievements !! User.id u = Some l /\
    length l = 28%nat /\
    Unlockable.mk (Achievement.id a) (Achievement.icon a)
                  (Achievement.title a) (Achievement.description a)
                  (bool_decide
                     (Z.rem (Achievement.id a * 3 + User.id u * 5) 10 > 3))
    ∈ l.
Proof.
  intros Hu Ha. split; [reflexivity|].
  exists (map (unlock u) allAchievementsList). split; [|split].
  - now apply (reduce_lookup leaderboardData ∅ u).
  - now rewrite length_map.
  - apply list_elem_of_In, in_map_iff. exists a. split.
    + unfold unlock, unlocked. f_equal.
      destruct (Z.ltb_spec 3 (Z.rem (Achievement.id a * 3 + User.id u * 5) 10)).
      * symmetry. apply bool_decide_eq_true. lia.
      * symmetry. apply bool_decide_eq_false. lia.
    + now apply list_elem_of_In.
Qed.

Lemma achievements_follow_formula_witness :
  let u := User.mk 3 3 "Grace Hopper" 12000 "woman in navy uniform" 30 24 in
  let a := Achievement.mk 2 Award "Half-Litre Hero" "Drink 500 mL in a day." in
  u ∈ leaderboardData /\ a ∈ allAchievementsList /\
  exists l,
    allAchievements !! 3 = Some l /\
    Unlockable.mk 2 Award "Half-Litre Hero" "Drink 500 mL in a day." false ∈ l.
Proof.
  intros u a.
  assert (Hu : u ∈ leaderboardData).
  { unfold leaderboardData. do 2 (apply elem_of_cons; right).
    apply elem_of_cons. left. reflexivity. }
  assert (Ha : a ∈ allAchievementsList).
  { unfold allAchievementsList. apply elem_of_cons; right.
    apply elem_of_cons. left. reflexivity. }
  split; [exact Hu|]. split; [exact Ha|].
  destruct (achievements_follow_formula u a Hu Ha) as (_ & l & Hl & _ & Hin).
  exists l. split; [exact Hl | exact Hin].
Defined.

End Achievements.

(** ** The dashboard simulation *)

Section DashboardSimulation.

Import UseToast Dashboard.

Implicit Types (s : Component) (e : Env) (d : Z) (rnd : Q).

(** [Math.random()] lies in [0, 1), so a drink is 50, 100 or 150 ml. *)
Lemma drank_values rnd :
  (0 <= rnd)%Q -> (rnd < 1)%Q ->
  drank rnd = 50 \/ drank rnd = 100 \/ drank rnd = 150.
Proof.
  intros H0 H1. unfold drank.
  pose proof (Qfloor_le (rnd * 3)) as Hlo.
  pose proof (Qlt_floor (rnd * 3)) as Hhi.
  assert (Qfloor (rnd * 3) < 3) as Hlt.
  { rewrite Zlt_Qlt. apply Qle_lt_trans with (rnd * 3)%Q; [exact Hlo|].
    unfold inject_Z. lra. }
  assert (0 < Qfloor (rnd * 3) + 1) as Hgt.
  { rewrite Zlt_Qlt. apply Qle_lt_trans with (rnd * 3)%Q; [|exact Hhi].
    unfold inject_Z. lra. }
  lia.
Qed.

Lemma logDrink_drops d s :
  drops (logDrink d s) = if 0 <? d then drops s + d / 10 else drops s.
Proof.
  unfold logDrink. destruct (0 <? d); [|reflexivity].
  now destruct (xpToNextLevel s <=? xp s + d).
Qed.

Lemma logDrink_hydration d s :
  hydration (logDrink d s)
  = if 0 <? d
    then mkHydration (Z.min (current (hydration s) + d) (goal (hydration s)))
                     (goal (hydration s))
    else hydration s.
Proof.
  unfold logDrink. destruct (0 <? d); [|reflexivity].
  now destruct (xpToNextLevel s <=? xp s + d).
Qed.

Lemma logDrink_bottleLevel d s :
  bottleLevel (logDrink d s)
  = if 0 <? d then Z.max 0 (bottleLevel s - d) else bottleLevel s.
Proof.
  unfold logDrink. destruct (0 <? d); [|reflexivity].
  now destruct (xpToNextLevel s <=? xp s + d).
Qed.

(** C4. A drink of [d] ml processed by the interval, [d] being 50, 100
    or 150 as [Math.random] dictates, raises the drops by exactly
    [floor(d / 10)], and a tick never lowers the drops. *)
Theorem tick_awards_drops rnd s :
  (0 <= rnd)%Q -> (rnd < 1)%Q ->
  let d := drank rnd in
  (d = 50 \/ d = 100 \/ d = 150) /\
  d / 10 = Qfloor (inject_Z d / 10) /\
  drops (intervalTick rnd s) = drops s + d / 10 /\
  drops s <= drops (intervalTick rnd s).
Proof.
  intros H0 H1. cbv zeta. pose proof (drank_values rnd H0 H1) as Hd.
  split; [exact Hd|]. unfold intervalTick. rewrite logDrink_drops.
  assert (0 <= drank rnd / 10) as Hpos by (apply Z.div_pos; lia).
  destruct Hd as [Hd|[Hd|Hd]]; rewrite Hd in *; simpl;
    repeat split; try reflexivity; lia.
Qed.

Lemma tick_awards_drops_witness :
  let s := mkComponent true (mkHydration 2450 2500) 100 5
                       (mkMotivation "Keep going" "Nice") 1 60 12 None in
  ((0 <= 2 # 3)%Q /\ (2 # 3 < 1)%Q) /\
  drank (2 # 3) = 150 /\
  drops (intervalTick (2 # 3) s) = 27.
Proof.
  intros s.
  assert (H0 : (0 <= 2 # 3)%Q) by (unfold Qle; simpl; lia).
  assert (H1 : (2 # 3 < 1)%Q) by (unfold Qlt; simpl; lia).
  split; [split; [exact H0 | exact H1]|]. split; [reflexivity|].
  exact (proj1 (proj2 (proj2 (tick_awards_drops (2 # 3) s H0 H1)))).
Defined.

Lemma handleConnect_state s e :
  fst (handleConnect s e)
  = mkComponent true (mkHydration 0 2500) 750 5 (motivation s) 1 0 0
                (levelUpInfo s).
Proof.
  unfold handleConnect, bind. now destruct (toast _ e).
Qed.

(** C6. [handleConnect] sets [isConnected], shows exactly one toast and
    resets the counters to fixed values. The new component state depends
    on nothing but the two cells it leaves alone; no timer is started and
    the clock is not read. *)
Theorem connect_resets_counters s e :
  let s' := fst (handleConnect s e) in
  let e' := snd (handleConnect s e) in
  let i := pretty (Z.rem (count e + 1) MAX_SAFE_INTEGER) in
  s' = mkComponent true (mkHydration 0 2500) 750 5 (motivation s) 1 0 0
                   (levelUpInfo s) /\
  (isConnected s' = true /\ hydration s' = mkHydration 0 2500 /\
   bottleLevel s' = 750 /\ streak s' = 5 /\ level s' = 1 /\ xp s' = 0 /\
   drops s' = 0) /\
  toasts (memoryState e')
  = [mkToast i (Some (Text "NEPHRA Connected"))
             (Some (Text "Ready to track your hydration.")) None
             (Some true) (Some (DismissWhenClosed i))] /\
  count e' = Z.rem (count e + 1) MAX_SAFE_INTEGER /\
  timers e' = timers e /\ toastTimeouts e' = toastTimeouts e /\
  now e' = now e.
Proof.
  cbv zeta. unfold handleConnect, bind.
  destruct (toast_shows
              (mkProps (Some (Text "NEPHRA Connected"))
                       (Some (Text "Ready to track your hydration."))
                       None None None) e) as [r Hr].
  cbv zeta in Hr. rewrite Hr. simpl. repeat split.
Qed.

(** The bounds the simulation maintains. *)
Lemma logDrink_bounds d s :
  current (hydration s) <= goal (hydration s) -> 0 <= bottleLevel s ->
  current (hydration (logDrink d s)) <= goal (hydration (logDrink d s)) /\
  0 <= bottleLevel (logDrink d s).
Proof.
  intros Hh Hb. rewrite logDrink_hydration, logDrink_bottleLevel.
  destruct (0 <? d); simpl; lia.
Qed.

Lemma levelUpEffect_frame s e :
  hydration (fst (levelUpEffect s e)) = hydration s /\
  bottleLevel (fst (levelUpEffect s e)) = bottleLevel s.
Proof.
  unfold levelUpEffect. destruct (levelUpInfo s) as [n|]; [|easy].
  destruct (n =? 0); [easy|]. unfold bind.
  now destruct (toast _ e).
Qed.

Lemma handle_bounds ev s e :
  current (hydration s) <= goal (hydration s) -> 0 <= bottleLevel s ->
  current (hydration (fst (handle ev s e)))
  <= goal (hydration (fst (handle ev s e))) /\
  0 <= bottleLevel (fst (handle ev s e)).
Proof.
  intros Hh Hb. destruct ev as [rnd|].
  - simpl. destruct (isConnected s); [|easy].
    now apply logDrink_bounds.
  - simpl. destruct (levelUpEffect_frame s e) as [Hh' Hb']. rewrite Hh', Hb'. easy.
Qed.

Lemma run_bounds evs s e :
  current (hydration s) <= goal (hydration s) -> 0 <= bottleLevel s ->
  current (hydration (fst (run evs s e)))
  <= goal (hydration (fst (run evs s e))) /\
  0 <= bottleLevel (fst (run evs s e)).
Proof.
  revert s e. induction evs as [|ev evs IH]; intros s e Hh Hb; [easy|].
  simpl. unfold bind.
  destruct (handle_bounds ev s e Hh Hb) as [Hh' Hb'].
  destruct (handle ev s e) as [s1 e1]. now apply IH.
Qed.

(** C8. After connecting, whatever the interval and the level-up effect
    do and whatever [Math.random] returns, [hydration.current] never
    exceeds [hydration.goal] and [bottleLevel] never drops below 0. *)
Theorem simulation_stays_clamped s e evs :
  let s0 := fst (handleConnect s e) in
  let e0 := snd (handleConnect s e) in
  let s' := fst (run evs s0 e0) in
  current (hydration s') <= goal (hydration s') /\
  0 <= bottleLevel s'.
Proof.
  cbv zeta.
  apply run_bounds; rewrite handleConnect_state; simpl; lia.
Qed.

End DashboardSimulation.

(** ** The hydration recommendation action *)

Section RecommendationAction.

Import ProfileActions.

Context {Data Error : Type}.
Variable parse : Data -> Result Error Profile.
Variable flow : FlowInput -> Result Error Recommendation.

(** The three ways the action can go. *)
Lemma action_invalid data err :
  parse data = Throws err ->
  getHydrationRecommendationAction parse flow data
  = (None, [ConsoleError "Error getting hydration recommendation:" err]).
Proof. intros H. unfold getHydrationRecommendationAction. now rewrite H. Qed.

Lemma action_flow_fails data v err :
  parse data = Returns v ->
  flow (mkFlowInput v mockHistoricalData) = Throws err ->
  getHydrationRecommendationAction parse flow data
  = (None, [FlowCalled (mkFlowInput v mockHistoricalData);
            ConsoleError "Error getting hydration recommendation:" err]).
Proof.
  intros H1 H2. unfold getHydrationRecommendationAction. now rewrite H1, H2.
Qed.

Lemma action_succeeds data v r :
  parse data = Returns v ->
  flow (mkFlowInput v mockHistoricalData) = Returns r ->
  getHydrationRecommendationAction parse flow data = (Some r, [FlowCalled (mkFlowInput v mockHistoricalData)]).
Proof.
  intros H1 H2. unfold getHydrationRecommendationAction. now rewrite H1, H2.
Qed.

(** C5. The action validates first: when [ProfileSchema.parse] throws,
    the flow is not called. It returns [null] exactly when the validation
    or the flow call throws, and otherwise it returns what the flow
    returned, unchanged. *)
Theorem action_null_iff_throws data :
  (fst (getHydrationRecommendationAction parse flow data) = None <->
   (exists err, parse data = Throws err) \/
   (exists v err, parse data = Returns v /\
                  flow (mkFlowInput v mockHistoricalData) = Throws err)) /\
  (forall v r, parse data = Returns v ->
               flow (mkFlowInput v mockHistoricalData) = Returns r ->
               fst (getHydrationRecommendationAction parse flow data) = Some r) /\
  (forall err, parse data = Throws err ->
               forall input, @FlowCalled Error input ∉ snd (getHydrationRecommendationAction parse flow data)) /\
  (forall v, parse data = Returns v ->
             head (snd (getHydrationRecommendationAction parse flow data))
             = Some (FlowCalled (mkFlowInput v mockHistoricalData))).
Proof.
  repeat apply conj.
  - intros Hnone. destruct (parse data) as [v|err] eqn:Hp; [|eauto].
    destruct (flow (mkFlowInput v mockHistoricalData)) as [r|err] eqn:Hf.
    + rewrite (action_succeeds data v r Hp Hf) in Hnone. discriminate.
    + right. eauto.
  - intros [[err Hp]|(v & err & Hp & Hf)].
    + now rewrite (action_invalid data err Hp).
    + now rewrite (action_flow_fails data v err Hp Hf).
  - intros v r Hp Hf. now rewrite (action_succeeds data v r Hp Hf).
  - intros err Hp input Hin. rewrite (action_invalid data err Hp) in Hin.
    apply list_elem_of_singleton in Hin. discriminate.
  - intros v Hp.
    destruct (flow (mkFlowInput v mockHistoricalData)) as [r|err] eqn:Hf.
    + now rewrite (action_succeeds data v r Hp Hf).
    + now rewrite (action_flow_fails data v err Hp Hf).
Qed.

End RecommendationAction.

Section RecommendationActionExample.

Import ProfileActions ProfileActionsExample.

Lemma action_null_iff_throws_witness :
  let ada := mkProfile "Ada" 36 "female" 58 None in
  let alan := mkProfile "Alan" 41 "male" 70 None in
  fst (getHydrationRecommendationAction example_parse example_flow (Some ada))
  = Some (mkRecommendation 2500 60) /\
  fst (getHydrationRecommendationAction example_parse example_flow (Some alan))
  = None /\
  fst (getHydrationRecommendationAction example_parse example_flow None)
  = None.
Proof.
  intros ada alan. split; [|split].
  - exact (proj1 (proj2 (action_null_iff_throws example_parse example_flow
                           (Some ada)))
                 ada (mkRecommendation 2500 60) eq_refl eq_refl).
  - apply (proj1 (action_null_iff_throws example_parse example_flow (Some alan))).
    right. exists alan, "503 Service Unavailable". split; reflexivity.
  - apply (proj1 (action_null_iff_throws example_parse example_flow None)).
    left. exists "Required". reflexivity.
Defined.

End RecommendationActionExample.

(** * Further properties *)

(** ** The toast store: updates, repeated dismissals, listeners *)

Section ToastStoreActions.

Import UseToast ToastFacts ToastHost.

Implicit Types (s : State) (e : Env) (t : ToasterToast) (i : string)
         (p : PartialToast).

Lemma spread_twice t p : spread (spread t p) p = spread t p.
Proof.
  destruct t, p as [[?|] [?|] [?|] [?|] [?|] [?|]]; reflexivity.
Qed.

Lemma map_fixed {A} (f : A -> A) (l : list A) :
  (forall x, x ∈ l -> f x = x) -> map f l = l.
Proof.
  induction l as [|x l IH]; intros H; [reflexivity|]. simpl.
  rewrite H by (apply elem_of_cons; now left).
  rewrite IH; [reflexivity|]. intros y Hy. apply H. apply elem_of_cons. now right.
Qed.

(** X1. An [UPDATE_TOAST] whose identifier is carried by no toast on
    screen, or that carries no identifier at all, changes nothing. *)
Theorem update_of_unknown_toast s p e :
  (forall t, t ∈ toasts s -> part_id p <> Some (id t)) ->
  reducer s (UPDATE_TOAST p) e = (s, e).
Proof.
  intros Hnone. unfold reducer, ret. f_equal. destruct s as [l]. f_equal.
  simpl in *. apply map_fixed. intros t Ht.
  destruct (id_is (part_id p) t) eqn:E; [|reflexivity].
  apply id_is_true in E. now destruct (Hnone t Ht).
Qed.

Lemma update_of_unknown_toast_witness :
  let t1 := mkToast "1" (Some (Text "Syncing Data...")) None None (Some true)
                    (Some (DismissWhenClosed "1")) in
  let p := mkPartial (Some "7") (Some (Some (Text "Done"))) None None None None in
  (forall t, t ∈ toasts (mkState [t1]) -> part_id p <> Some (id t)) /\
  reducer (mkState [t1]) (UPDATE_TOAST p) initial = (mkState [t1], initial).
Proof.
  intros t1 p.
  assert (H : forall t, t ∈ toasts (mkState [t1]) -> part_id p <> Some (id t)).
  { intros t Ht. apply list_elem_of_singleton in Ht. subst t. discriminate. }
  split; [exact H|]. exact (update_of_unknown_toast (mkState [t1]) p initial H).
Defined.

(** X2. Applying the same [UPDATE_TOAST] twice gives what applying it once
    gives; the toast that is hit takes every key the update carries and
    keeps the others. *)
Theorem update_is_idempotent s p e e' :
  fst (reducer (fst (reducer s (UPDATE_TOAST p) e)) (UPDATE_TOAST p) e')
  = fst (reducer s (UPDATE_TOAST p) e) /\
  (forall n t, toasts s !! n = Some t -> part_id p = Some (id t) ->
     exists t',
       toasts (fst (reducer s (UPDATE_TOAST p) e)) !! n = Some t' /\
       id t' = id t /\
       title t' = default (title t) (part_title p) /\
       description t' = default (description t) (part_description p) /\
       action t' = default (action t) (part_action p) /\
       open t' = default (open t) (part_open p) /\
       onOpenChange t' = default (onOpenChange t) (part_onOpenChange p)).
Proof.
  split.
  - unfold reducer, ret; simpl. f_equal. rewrite map_map. apply map_ext.
    intros t. destruct (id_is (part_id p) t) eqn:E.
    + rewrite (proj2 (id_is_true (part_id p) (spread t p))).
      * apply spread_twice.
      * rewrite id_spread by exact E. now apply id_is_true.
    + now rewrite E.
  - intros n t Hn Hid. exists (spread t p).
    rewrite reducer_update, list_lookup_fmap, Hn. simpl.
    rewrite (proj2 (id_is_true (part_id p) t) Hid).
    repeat split. unfold spread; simpl. now rewrite Hid.
Qed.

Lemma update_is_idempotent_witness :
  let t1 := mkToast "1" (Some (Text "Syncing Data...")) None None (Some true)
                    (Some (DismissWhenClosed "1")) in
  let p := mkPartial (Some "1") (Some (Some (Text "Done"))) None None None None in
  toasts (mkState [t1]) !! 0%nat = Some t1 /\ part_id p = Some (id t1) /\
  exists t',
    toasts (fst (reducer (mkState [t1]) (UPDATE_TOAST p) initial)) !! 0%nat
    = Some t' /\
    title t' = Some (Text "Done") /\ open t' = Some true.
Proof.
  intros t1 p. split; [reflexivity|]. split; [reflexivity|].
  destruct (proj2 (update_is_idempotent (mkState [t1]) p initial initial)
                  0%nat t1 eq_refl eq_refl)
    as (t' & Hl & _ & Ht & _ & _ & Ho & _).
  exists t'. split; [exact Hl|]. split; [exact Ht | exact Ho].
Defined.

(** A removal queue in which every toast of a list is already entered is
    left alone by the loop over that list. *)
Lemma forEach_queue_pending (l : list ToasterToast) e :
  (forall t, t ∈ l -> is_Some (toastTimeouts e !! id t)) ->
  snd (forEach (fun t => addToRemoveQueue (id t)) l e) = e.
Proof.
  induction l as [|x l IH]; intros Hall; [reflexivity|].
  rewrite forEach_cons.
  rewrite addToRemoveQueue_pending by (apply Hall, elem_of_cons; now left).
  apply IH. intros t Ht. apply Hall, elem_of_cons. now right.
Qed.

Lemma close_twice t : close (close t) = close t.
Proof. reflexivity. Qed.

(** X3. Dismissing again, with the same [toastId] and before anything
    else happens, changes neither the toasts nor the removal queue nor the
    timers: no second timer is started. *)
Theorem dismiss_is_idempotent s x e :
  let s1 := fst (reducer s (DISMISS_TOAST x) e) in
  let e1 := snd (reducer s (DISMISS_TOAST x) e) in
  reducer s1 (DISMISS_TOAST x) e1 = (s1, e1).
Proof.
  cbv zeta.
  set (s1 := fst (reducer s (DISMISS_TOAST x) e)).
  set (e1 := snd (reducer s (DISMISS_TOAST x) e)).
  assert (toasts s1
          = map (fun t => if id_is x t || is_undefined x then close t else t)
                (toasts s)) as Hs1 by apply reducer_dismiss.
  assert (fst (reducer s1 (DISMISS_TOAST x) e1) = s1) as Hfst.
  { destruct s1 as [l1]. simpl in Hs1.
    pose proof (reducer_dismiss (mkState l1) x e1) as H.
    destruct (fst (reducer (mkState l1) (DISMISS_TOAST x) e1)) as [l2].
    simpl in H. f_equal. rewrite H, Hs1, map_map. apply map_ext. intros t.
    destruct (id_is x t || is_undefined x) eqn:E; [|now rewrite E].
    assert (id_is x (close t) || is_undefined x = true) as ->
        by (destruct x; exact E).
    reflexivity. }
  assert (snd (reducer s1 (DISMISS_TOAST x) e1) = e1) as Hsnd.
  { unfold reducer at 1, bind. destruct (truthy x) eqn:Htr.
    - assert (snd (addToRemoveQueue (default EmptyString x) e1) = e1) as Hq.
      { apply addToRemoveQueue_pending. subst e1. unfold reducer, bind.
        rewrite Htr.
        pose proof (addToRemoveQueue_schedules (default EmptyString x) e) as [Hs _].
        now destruct (addToRemoveQueue (default EmptyString x) e). }
      now destruct (addToRemoveQueue (default EmptyString x) e1).
    - assert (snd (forEach (fun toast => addToRemoveQueue (id toast))
                           (toasts s1) e1) = e1) as Hq.
      { apply forEach_queue_pending. intros t Ht.
        rewrite Hs1 in Ht. apply list_elem_of_In, in_map_iff in Ht.
        destruct Ht as (t0 & Heq & Hin0). apply list_elem_of_In in Hin0.
        assert (id t = id t0) as -> by (subst t; now destruct (_ || _)).
        subst e1. unfold reducer, bind. rewrite Htr.
        pose proof (forEach_queue_schedules (toasts s) e t0 Hin0) as [Hs _].
        now destruct (forEach (fun toast => addToRemoveQueue (id toast))
                              (toasts s) e). }
      now destruct (forEach (fun toast => addToRemoveQueue (id toast))
                            (toasts s1) e1). }
  rewrite (surjective_pairing (reducer s1 (DISMISS_TOAST x) e1)).
  now rewrite Hfst, Hsnd.
Qed.

End ToastStoreActions.

Section ToastStoreHost.

Import UseToast ToastFacts ToastHost.

Implicit Types (s : State) (e : Env) (t : ToasterToast) (i : string).

(** *** What the queue operations leave alone *)

Lemma addToRemoveQueue_frame i e :
  count (snd (addToRemoveQueue i e)) = count e /\
  memoryState (snd (addToRemoveQueue i e)) = memoryState e /\
  listeners (snd (addToRemoveQueue i e)) = listeners e /\
  rendered (snd (addToRemoveQueue i e)) = rendered e.
Proof.
  destruct (toastTimeouts e !! i) as [h|] eqn:E.
  - now rewrite addToRemoveQueue_pending by eauto.
  - now rewrite addToRemoveQueue_fresh by assumption.
Qed.

Lemma forEach_queue_frame (l : list ToasterToast) e :
  count (snd (forEach (fun t => addToRemoveQueue (id t)) l e)) = count e /\
  memoryState (snd (forEach (fun t => addToRemoveQueue (id t)) l e))
  = memoryState e /\
  listeners (snd (forEach (fun t => addToRemoveQueue (id t)) l e))
  = listeners e /\
  rendered (snd (forEach (fun t => addToRemoveQueue (id t)) l e))
  = rendered e.
Proof.
  revert e. induction l as [|x l IH]; intros e; [easy|].
  rewrite forEach_cons.
  destruct (IH (snd (addToRemoveQueue (id x) e))) as (-> & -> & -> & ->).
  apply addToRemoveQueue_frame.
Qed.

Lemma reducer_frame s a e :
  count (snd (reducer s a e)) = count e /\
  memoryState (snd (reducer s a e)) = memoryState e /\
  listeners (snd (reducer s a e)) = listeners e /\
  rendered (snd (reducer s a e)) = rendered e.
Proof.
  destruct a as [t|p|x|y]; try (rewrite reducer_pure by discriminate; easy).
  unfold reducer, bind. destruct (truthy x).
  - pose proof (addToRemoveQueue_frame (default EmptyString x) e) as H.
    now destruct (addToRemoveQueue _ e).
  - pose proof (forEach_queue_frame (toasts s) e) as H.
    now destruct (forEach (fun toast => addToRemoveQueue (id toast)) (toasts s) e).
Qed.

(** [dispatch], step by step. *)
Lemma dispatch_unfold a e :
  snd (dispatch a e)
  = snd (forEach (fun l => modify
                             (set_rendered
                                (insert l (fst (reducer (memoryState e) a e)))))
                 (listeners e)
                 (set_memoryState (fst (reducer (memoryState e) a e))
                                  (snd (reducer (memoryState e) a e)))).
Proof.
  unfold dispatch, bind, get, modify; simpl.
  destruct (reducer_frame (memoryState e) a e) as (_ & _ & Hl & _).
  destruct (reducer (memoryState e) a e) as [s' e1]; simpl in *.
  now rewrite Hl.
Qed.

Lemma dispatch_env a e :
  exists r,
    snd (dispatch a e)
    = set_rendered (fun _ => r)
        (set_memoryState (fst (reducer (memoryState e) a e))
                         (snd (reducer (memoryState e) a e))).
Proof. rewrite dispatch_unfold. apply notify_only_rendered. Qed.

Lemma notify_rendered s' (ls : list nat) e (l : nat) :
  rendered (snd (forEach (fun k => modify (set_rendered (insert k s'))) ls e)) !! l
  = if decide (l ∈ ls) then Some s' else rendered e !! l.
Proof.
  revert e. induction ls as [|k ls IH]; intros e.
  - simpl. destruct (decide (l ∈ [])) as [H|H]; [|reflexivity].
    now apply elem_of_nil in H.
  - rewrite forEach_cons. simpl. rewrite IH. simpl.
    destruct (decide (l ∈ ls)) as [Hin|Hout].
    + rewrite decide_True; [reflexivity|]. apply elem_of_cons. now right.
    + destruct (decide (k = l)) as [->|Hne].
      * rewrite lookup_insert_eq, decide_True; [reflexivity|].
        apply elem_of_cons. now left.
      * rewrite lookup_insert_ne by exact Hne.
        rewrite decide_False; [reflexivity|].
        intros H. apply elem_of_cons in H as [H|H]; congruence.
Qed.

(** X4. After a [dispatch], every subscribed listener holds the new
    [memoryState], the cells of the others are as before, and nobody was
    subscribed or unsubscribed. *)
Theorem dispatch_notifies_listeners a e (l : nat) :
  let e' := snd (dispatch a e) in
  (l ∈ listeners e -> rendered e' !! l = Some (memoryState e')) /\
  (l ∉ listeners e -> rendered e' !! l = rendered e !! l) /\
  listeners e' = listeners e.
Proof.
  cbv zeta. rewrite dispatch_memoryState.
  destruct (reducer_frame (memoryState e) a e) as (_ & _ & Hl & Hr).
  split; [|split].
  - intros Hin. rewrite dispatch_unfold, notify_rendered.
    now rewrite decide_True.
  - intros Hout. rewrite dispatch_unfold, notify_rendered.
    rewrite decide_False by exact Hout. simpl. now rewrite Hr.
  - destruct (dispatch_env a e) as [r ->]. simpl. exact Hl.
Qed.

Lemma dispatch_notifies_listeners_witness :
  let e := snd (subscribe 7%nat initial) in
  let t := mkToast "1" (Some (Text "Sync Complete")) None None (Some true) None in
  7%nat ∈ listeners e /\
  rendered (snd (dispatch (ADD_TOAST t) e)) !! 7%nat = Some (mkState [t]).
Proof.
  intros e t.
  assert (H : 7%nat ∈ listeners e) by (apply list_elem_of_singleton; reflexivity).
  split; [exact H|].
  exact (proj1 (dispatch_notifies_listeners (ADD_TOAST t) e 7%nat) H).
Defined.

(** *** Identifiers *)

Lemma next_count_bounds c :
  0 <= c ->
  0 <= Z.rem (c + 1) MAX_SAFE_INTEGER < MAX_SAFE_INTEGER /\
  (c + 1 < MAX_SAFE_INTEGER -> Z.rem (c + 1) MAX_SAFE_INTEGER = c + 1) /\
  (c = MAX_SAFE_INTEGER - 1 -> Z.rem (c + 1) MAX_SAFE_INTEGER = 0).
Proof.
  intros Hc. unfold MAX_SAFE_INTEGER. split; [|split].
  - apply Z.rem_bound_pos; lia.
  - intros Hlt. apply Z.rem_small. lia.
  - intros ->. now vm_compute.
Qed.

Lemma next_count_differs c :
  0 <= c < MAX_SAFE_INTEGER -> Z.rem (c + 1) MAX_SAFE_INTEGER <> c.
Proof.
  intros Hc. destruct (next_count_bounds c (proj1 Hc)) as (_ & Hs & Hw).
  destruct (Z.eq_dec c (MAX_SAFE_INTEGER - 1)) as [Heq|Hne].
  - rewrite (Hw Heq). subst c. discriminate.
  - rewrite Hs by lia. lia.
Qed.

(** X5. [genId] numbers the toasts: while the counter is below
    [MAX_SAFE_INTEGER - 1] the identifier is the decimal form of the next
    integer, at [MAX_SAFE_INTEGER - 1] it wraps to "0", the counter stays
    in range, and two identifiers drawn one after the other differ. *)
Theorem genId_is_fresh e :
  0 <= count e ->
  let i1 := fst (genId e) in
  let e1 := snd (genId e) in
  let i2 := fst (genId e1) in
  i1 <> i2 /\
  0 <= count e1 < MAX_SAFE_INTEGER /\
  i1 = pretty (count e1) /\
  (count e + 1 < MAX_SAFE_INTEGER -> i1 = pretty (count e + 1)) /\
  (count e = MAX_SAFE_INTEGER - 1 -> i1 = "0").
Proof.
  intros Hc. cbv zeta. unfold genId, bind, get, modify, ret; simpl.
  destruct (next_count_bounds (count e) Hc) as (Hb & Hs & Hw).
  split; [|split; [exact Hb|split; [reflexivity|split]]].
  - intros Heq. apply (inj pretty) in Heq.
    symmetry in Heq. now apply next_count_differs in Heq.
  - intros Hlt. now rewrite Hs.
  - intros Heq. now rewrite (Hw Heq).
Qed.

Lemma genId_is_fresh_witness :
  0 <= count initial /\
  fst (genId initial) = "1" /\
  fst (genId (snd (genId initial))) <> "1".
Proof.
  assert (H : 0 <= count initial) by (simpl; lia).
  split; [exact H|].
  destruct (genId_is_fresh initial H) as (Hne & _ & _ & Hn & _).
  cbv zeta in Hne. split; [reflexivity|].
  intros Heq. apply Hne. rewrite Heq. reflexivity.
Defined.

End ToastStoreHost.

(** ** The toast store in every reachable state *)

Section ToastStoreReachable.

Import UseToast ToastFacts ToastHost.

Implicit Types (s : State) (e : Env) (t : ToasterToast) (i : string)
         (tm : Timer).

Lemma reducer_within_limit s a e :
  (length (toasts s) <= TOAST_LIMIT)%nat ->
  (length (toasts (fst (reducer s a e))) <= TOAST_LIMIT)%nat.
Proof.
  intros Hlen. destruct a as [t|p|x|[i|]].
  - rewrite reducer_add. unfold TOAST_LIMIT. simpl. lia.
  - now rewrite reducer_update, length_map.
  - now rewrite reducer_dismiss, length_map.
  - rewrite reducer_remove_one.
    etransitivity; [apply length_filter | exact Hlen].
  - rewrite reducer_remove_all. simpl. lia.
Qed.

Lemma queue_in_sync_frame e e' :
  nextHandle e' = nextHandle e -> timers e' = timers e ->
  toastTimeouts e' = toastTimeouts e ->
  queue_in_sync e -> queue_in_sync e'.
Proof. unfold queue_in_sync. now intros -> -> ->. Qed.

Lemma in_map_handle (l : list Timer) (h : nat) :
  h ∈ map handle l <-> exists tm, tm ∈ l /\ handle tm = h.
Proof.
  rewrite list_elem_of_In, in_map_iff. split.
  - intros (tm & Hh & Hin). exists tm. now rewrite list_elem_of_In.
  - intros (tm & Hin & Hh). exists tm. now rewrite <- list_elem_of_In.
Qed.

Lemma same_handle_same_timer (l : list Timer) tm1 tm2 :
  NoDup (map handle l) -> tm1 ∈ l -> tm2 ∈ l ->
  handle tm1 = handle tm2 -> tm1 = tm2.
Proof.
  induction l as [|x l IH]; intros Hnd H1 H2 Heq.
  - now apply elem_of_nil in H1.
  - simpl in Hnd. apply NoDup_cons in Hnd as [Hx Hnd].
    apply elem_of_cons in H1 as [->|H1]; apply elem_of_cons in H2 as [->|H2].
    + reflexivity.
    + destruct Hx. apply in_map_handle. exists tm2. now split.
    + destruct Hx. apply in_map_handle. exists tm1. now split.
    + now apply IH.
Qed.

Lemma NoDup_map_filter (P : Timer -> Prop) `{!forall x, Decision (P x)}
      (l : list Timer) :
  NoDup (map handle l) -> NoDup (map handle (filter P l)).
Proof.
  induction l as [|x l IH]; intros Hnd; [constructor|].
  simpl in Hnd. apply NoDup_cons in Hnd as [Hx Hnd].
  rewrite filter_cons. destruct (decide (P x)); [|now apply IH].
  simpl. apply NoDup_cons. split; [|now apply IH].
  intros Hin. apply Hx. apply in_map_handle in Hin as (tm & Hin & Hh).
  apply in_map_handle. exists tm. split; [|exact Hh].
  now apply list_elem_of_filter in Hin as [_ Hin].
Qed.

Lemma addToRemoveQueue_sync i e :
  queue_in_sync e -> queue_in_sync (snd (addToRemoveQueue i e)).
Proof.
  intros (Hlt & Hnd & Hq).
  destruct (toastTimeouts e !! i) as [h0|] eqn:E.
  { rewrite addToRemoveQueue_pending by eauto.
    exact (conj Hlt (conj Hnd Hq)). }
  rewrite addToRemoveQueue_fresh by assumption.
  unfold queue_in_sync; simpl. split; [|split].
  - intros tm Hin. apply elem_of_app in Hin as [Hin|Hin].
    + specialize (Hlt tm Hin). lia.
    + apply list_elem_of_singleton in Hin. subst tm. simpl. lia.
  - rewrite map_app. apply NoDup_app. split; [exact Hnd|]. split.
    + intros h Hin Hin'. simpl in Hin'. apply list_elem_of_singleton in Hin'.
      apply in_map_handle in Hin as (tm & Hin & Hh).
      specialize (Hlt tm Hin). lia.
    + simpl. apply NoDup_singleton.
  - intros j h. destruct (decide (i = j)) as [<-|Hne].
    + rewrite lookup_insert_eq. split.
      * intros [= <-]. exists (now e + TOAST_REMOVE_DELAY).
        apply elem_of_app. right. now apply list_elem_of_singleton.
      * intros (d & Hin). apply elem_of_app in Hin as [Hin|Hin].
        -- assert (toastTimeouts e !! i = Some h) as Hs by (apply Hq; eauto).
           congruence.
        -- apply list_elem_of_singleton in Hin. congruence.
    + rewrite lookup_insert_ne by exact Hne. rewrite Hq. split.
      * intros (d & Hin). exists d. apply elem_of_app. now left.
      * intros (d & Hin). exists d. apply elem_of_app in Hin as [Hin|Hin];
          [exact Hin|].
        apply list_elem_of_singleton in Hin. congruence.
Qed.

Lemma forEach_queue_sync (l : list ToasterToast) e :
  queue_in_sync e ->
  queue_in_sync (snd (forEach (fun t => addToRemoveQueue (id t)) l e)).
Proof.
  revert e. induction l as [|x l IH]; intros e Hq; [exact Hq|].
  rewrite forEach_cons. apply IH. now apply addToRemoveQueue_sync.
Qed.

Lemma reducer_sync s a e :
  queue_in_sync e -> queue_in_sync (snd (reducer s a e)).
Proof.
  intros Hq.
  destruct a as [t|p|x|y]; try (rewrite reducer_pure by discriminate; exact Hq).
  unfold reducer, bind. destruct (truthy x).
  - pose proof (addToRemoveQueue_sync (default EmptyString x) e Hq) as H.
    now destruct (addToRemoveQueue _ e).
  - pose proof (forEach_queue_sync (toasts s) e Hq) as H.
    now destruct (forEach (fun toast => addToRemoveQueue (id toast)) (toasts s) e).
Qed.

Lemma dispatch_sync a e :
  queue_in_sync e -> queue_in_sync (snd (dispatch a e)).
Proof.
  intros Hq. destruct (dispatch_env a e) as [r ->].
  eapply queue_in_sync_frame; [..|apply (reducer_sync (memoryState e) a e Hq)];
    reflexivity.
Qed.

Lemma fire_sync tm e :
  tm ∈ timers e -> queue_in_sync e -> queue_in_sync (snd (fire tm e)).
Proof.
  intros Htm (Hlt & Hnd & Hq).
  unfold fire, run_callback, bind, modify; simpl.
  destruct tm as [h0 d0 [i]]; simpl in *.
  apply dispatch_sync. unfold queue_in_sync; simpl. split; [|split].
  - intros tm Hin. apply list_elem_of_filter in Hin as [_ Hin]. now apply Hlt.
  - now apply NoDup_map_filter.
  - intros j h. rewrite lookup_delete_Some. split.
    + intros [Hne Hj]. apply Hq in Hj as (d & Hin). exists d.
      apply list_elem_of_filter. split; [|exact Hin]. simpl. intros Heq.
      pose proof (same_handle_same_timer _ _ _ Hnd Hin Htm Heq) as Hsame.
      congruence.
    + intros (d & Hin). apply list_elem_of_filter in Hin as [Hh Hin].
      simpl in Hh. split; [|apply Hq; eauto].
      intros <-.
      assert (toastTimeouts e !! i = Some h) as H1 by (apply Hq; eauto).
      assert (toastTimeouts e !! i = Some h0) as H2 by (apply Hq; eauto).
      congruence.
Qed.

Lemma reachable_invariant e :
  reachable e ->
  (length (toasts (memoryState e)) <= TOAST_LIMIT)%nat /\ queue_in_sync e.
Proof.
  induction 1 as [|e e' Hr [Hlen Hq] Hstep].
  - split; [simpl; lia|]. unfold queue_in_sync; simpl. split; [|split].
    + intros tm Hin. now apply elem_of_nil in Hin.
    + constructor.
    + intros j h. rewrite lookup_empty. split; [discriminate|].
      intros (d & Hin). now apply elem_of_nil in Hin.
  - destruct Hstep as [e dt Hdt|e tm Hin Hdue|e a|e props|e l|e l].
    + split; [exact Hlen|]. now apply (queue_in_sync_frame e).
    + split; [|now apply fire_sync].
      destruct tm as [h0 d0 [i]].
      rewrite (proj1 (fire_removes (mkTimer h0 d0 (RemoveToastLater i)) i e
                                   eq_refl)).
      etransitivity; [apply length_filter | exact Hlen].
    + split; [|now apply dispatch_sync].
      rewrite dispatch_memoryState. now apply reducer_within_limit.
    + destruct (toast_shows props e) as [r Heq]. cbv zeta in Heq.
      rewrite Heq. simpl. split; [unfold TOAST_LIMIT; lia|].
      now apply (queue_in_sync_frame e).
    + split; [exact Hlen|]. now apply (queue_in_sync_frame e).
    + unfold unsubscribe, bind, get; simpl.
      destruct (-1 <? indexOf l (listeners e)); simpl.
      * split; [exact Hlen|]. now apply (queue_in_sync_frame e).
      * now split.
Qed.

End ToastStoreReachable.

Section ToastStoreTraces.

Import UseToast ToastFacts ToastHost.

Implicit Types (s : State) (e : Env) (t : ToasterToast) (i : string)
         (tm : Timer).

(** X6. In every state the store can reach, at most [TOAST_LIMIT] = 1
    toast is on screen. *)
Theorem reachable_within_toast_limit e :
  reachable e -> (length (toasts (memoryState e)) <= 1)%nat.
Proof. intros Hr. exact (proj1 (reachable_invariant e Hr)). Qed.

Lemma reachable_within_toast_limit_witness :
  let p1 := mkProps (Some (Text "Syncing Data...")) None None None None in
  let p2 := mkProps (Some (Text "Sync Complete")) None None None None in
  let e := snd (toast p2 (snd (toast p1 initial))) in
  reachable e /\ (length (toasts (memoryState e)) <= 1)%nat.
Proof.
  intros p1 p2 e.
  assert (H : reachable e).
  { apply (reachable_step (snd (toast p1 initial))); [|apply step_toast].
    apply (reachable_step initial); [apply reachable_initial | apply step_toast]. }
  split; [exact H | exact (reachable_within_toast_limit e H)].
Defined.

(** X7. In every reachable state the removal queue and the timers of the
    host agree: an identifier is in [toastTimeouts], with the handle of its
    timer, exactly when a timer is pending to remove it, and no identifier
    has two timers pending. *)
Theorem reachable_queue_matches_timers e :
  reachable e ->
  (forall j h, toastTimeouts e !! j = Some h <->
               exists d, mkTimer h d (RemoveToastLater j) ∈ timers e) /\
  (forall tm1 tm2, tm1 ∈ timers e -> tm2 ∈ timers e ->
                   callback tm1 = callback tm2 -> tm1 = tm2).
Proof.
  intros Hr. destruct (reachable_invariant e Hr) as (_ & Hlt & Hnd & Hq).
  split; [exact Hq|]. intros tm1 tm2 H1 H2 Hcb.
  apply (same_handle_same_timer (timers e)); try assumption.
  destruct tm1 as [h1 d1 [j1]], tm2 as [h2 d2 [j2]]; simpl in *.
  injection Hcb as <-.
  assert (toastTimeouts e !! j1 = Some h1) as E1 by (apply Hq; eauto).
  assert (toastTimeouts e !! j1 = Some h2) as E2 by (apply Hq; eauto).
  congruence.
Qed.

Lemma reachable_queue_matches_timers_witness :
  let p1 := mkProps (Some (Text "Syncing Data...")) None None None None in
  let e := snd (dismiss "1" (snd (toast p1 initial))) in
  reachable e /\
  (toastTimeouts e !! "1" = Some 0%nat <->
   exists d, mkTimer 0 d (RemoveToastLater "1") ∈ timers e).
Proof.
  intros p1 e.
  assert (H : reachable e).
  { apply (reachable_step (snd (toast p1 initial))); [|apply step_dispatch].
    apply (reachable_step initial); [apply reachable_initial | apply step_toast]. }
  split; [exact H|].
  exact (proj1 (reachable_queue_matches_timers e H) "1" 0%nat).
Defined.

Lemma filter_all_out (l : list ToasterToast) i :
  (forall t, t ∈ l -> id t = i) -> filter (fun t => id t <> i) l = [].
Proof.
  induction l as [|x l IH]; intros H; [reflexivity|].
  rewrite filter_cons, decide_False.
  - apply IH. intros t Ht. apply H, elem_of_cons. now right.
  - intros Hne. apply Hne, H, elem_of_cons. now left.
Qed.

Lemma filter_all_in (l : list ToasterToast) i :
  (forall t, t ∈ l -> id t <> i) -> filter (fun t => id t <> i) l = l.
Proof.
  induction l as [|x l IH]; intros H; [reflexivity|].
  rewrite filter_cons, decide_True.
  - f_equal. apply IH. intros t Ht. apply H, elem_of_cons. now right.
  - apply H, elem_of_cons. now left.
Qed.

(** X8. From a reachable state, showing a toast and dismissing it leaves
    it on screen, closed, with one timer pending for it; when that timer
    fires the store is empty and the identifier has left the queue. *)
Theorem toast_dismiss_fire_empties_store e props :
  reachable e ->
  let i := fst (toast props e) in
  let e1 := snd (toast props e) in
  let e2 := snd (dismiss i e1) in
  (exists t, toasts (memoryState e2) = [t] /\ id t = i /\ open t = Some false) /\
  (exists tm,
      tm ∈ timers e2 /\ callback tm = RemoveToastLater i /\
      toasts (memoryState (snd (fire tm e2))) = [] /\
      toastTimeouts (snd (fire tm e2)) !! i = None).
Proof.
  intros Hr. cbv zeta.
  assert (reachable (snd (dismiss (fst (toast props e)) (snd (toast props e)))))
    as Hr2.
  { eapply reachable_step; [|apply step_dispatch].
    eapply reachable_step; [exact Hr | apply step_toast]. }
  revert Hr2. destruct (toast_shows props e) as [r Heq]. cbv zeta in Heq.
  rewrite Heq. simpl fst. simpl snd.
  set (i := pretty (Z.rem (count e + 1) MAX_SAFE_INTEGER)).
  set (t := mkToast i _ _ _ _ _). set (e1 := mkEnv _ _ _ _ _ _ _ _).
  intros Hr2. unfold dismiss in *.
  assert (toasts (memoryState (snd (dispatch (DISMISS_TOAST (Some i)) e1)))
          = [close t]) as Hst.
  { rewrite dispatch_memoryState, reducer_dismiss. simpl.
    now rewrite String.eqb_refl. }
  split.
  - exists (close t). now rewrite Hst.
  - assert (is_Some (toastTimeouts
                       (snd (dispatch (DISMISS_TOAST (Some i)) e1)) !! i)) as [h Hh].
    { rewrite dispatch_toastTimeouts.
      apply (reducer_dismiss_queue (memoryState e1) (Some i) e1 t).
      - simpl. apply elem_of_cons. now left.
      - now right. }
    destruct (reachable_invariant _ Hr2) as (_ & _ & _ & Hq).
    apply Hq in Hh as (d & Hin).
    exists (mkTimer h d (RemoveToastLater i)).
    split; [exact Hin|]. split; [reflexivity|].
    destruct (fire_removes (mkTimer h d (RemoveToastLater i)) i
                           (snd (dispatch (DISMISS_TOAST (Some i)) e1)) eq_refl)
      as [Hf Hn].
    split; [|exact Hn]. rewrite Hf, Hst. apply filter_all_out.
    intros t0 Ht0. apply list_elem_of_singleton in Ht0. now subst t0.
Qed.

Lemma toast_dismiss_fire_empties_store_witness :
  let props := mkProps (Some (Text "Level Up!")) None None None None in
  let e2 := snd (dismiss "1" (snd (toast props initial))) in
  reachable initial /\
  exists tm,
    tm ∈ timers e2 /\ callback tm = RemoveToastLater "1" /\
    toasts (memoryState (snd (fire tm e2))) = [].
Proof.
  intros props e2. split; [apply reachable_initial|].
  destruct (toast_dismiss_fire_empties_store initial props reachable_initial)
    as (_ & tm & Hin & Hcb & Hf & _).
  exists tm. split; [exact Hin|]. split; [exact Hcb | exact Hf].
Defined.

Lemma dispatch_count a e : count (snd (dispatch a e)) = count e.
Proof.
  destruct (dispatch_env a e) as [r ->]. simpl.
  apply (reducer_frame (memoryState e) a e).
Qed.

(** X9. A removal that fires late does not touch the toast that has
    replaced the dismissed one: after toast, dismiss, toast, the two
    identifiers differ and firing the timer of the first leaves the second
    on screen. *)
Theorem stale_removal_spares_next_toast e p1 p2 :
  0 <= count e ->
  let i1 := fst (toast p1 e) in
  let e2 := snd (dismiss i1 (snd (toast p1 e))) in
  let i2 := fst (toast p2 e2) in
  let e3 := snd (toast p2 e2) in
  i1 <> i2 /\
  ids (memoryState e3) = [i2] /\
  (forall tm, callback tm = RemoveToastLater i1 ->
              toasts (memoryState (snd (fire tm e3))) = toasts (memoryState e3)).
Proof.
  intros Hc. cbv zeta.
  destruct (toast_shows p1 e) as [r1 Heq1]. cbv zeta in Heq1. rewrite Heq1.
  simpl fst. simpl snd.
  set (c1 := Z.rem (count e + 1) MAX_SAFE_INTEGER).
  set (e1 := mkEnv _ _ _ _ _ _ _ _).
  set (e2 := snd (dismiss (pretty c1) e1)).
  assert (count e2 = c1) as Hc2 by (unfold e2, dismiss; now rewrite dispatch_count).
  destruct (toast_shows p2 e2) as [r2 Heq2]. cbv zeta in Heq2. rewrite Heq2.
  simpl fst. simpl snd. rewrite Hc2.
  assert (pretty c1 <> pretty (Z.rem (c1 + 1) MAX_SAFE_INTEGER)) as Hne.
  { intros Heq. apply (inj pretty) in Heq. symmetry in Heq.
    apply next_count_differs in Heq; [exact Heq|].
    apply (next_count_bounds (count e) Hc). }
  split; [exact Hne|]. split; [reflexivity|].
  intros tm Hcb. rewrite (proj1 (fire_removes tm (pretty c1) _ Hcb)). simpl.
  apply filter_all_in. intros t Ht. apply list_elem_of_singleton in Ht.
  subst t. simpl. congruence.
Qed.

Lemma stale_removal_spares_next_toast_witness :
  let p1 := mkProps (Some (Text "Syncing Data...")) None None None None in
  let p2 := mkProps (Some (Text "Sync Complete")) None None None None in
  let e3 := snd (toast p2 (snd (dismiss "1" (snd (toast p1 initial))))) in
  0 <= count initial /\
  toasts (memoryState
            (snd (fire (mkTimer 0 1000000 (RemoveToastLater "1")) e3)))
  = toasts (memoryState e3).
Proof.
  intros p1 p2 e3.
  assert (H : 0 <= count initial) by (simpl; lia).
  split; [exact H|].
  exact (proj2 (proj2 (stale_removal_spares_next_toast initial p1 p2 H))
               (mkTimer 0 1000000 (RemoveToastLater "1")) eq_refl).
Defined.

(** *** Subscriptions *)

Lemma indexOf_absent (l : nat) (ls : list nat) : l ∉ ls -> indexOf l ls = -1.
Proof.
  induction ls as [|k ls IH]; intros Hout; [reflexivity|]. simpl.
  destruct (Nat.eqb_spec k l) as [->|Hne].
  - destruct Hout. apply elem_of_cons. now left.
  - rewrite IH; [reflexivity|]. intros Hin. apply Hout, elem_of_cons. now right.
Qed.

Lemma indexOf_pushed (l : nat) (ls : list nat) :
  l ∉ ls -> indexOf l (ls ++ [l]) = Z.of_nat (length ls).
Proof.
  induction ls as [|k ls IH]; intros Hout; simpl.
  - now rewrite Nat.eqb_refl.
  - destruct (Nat.eqb_spec k l) as [->|Hne].
    + destruct Hout. apply elem_of_cons. now left.
    + rewrite IH by (intros Hin; apply Hout, elem_of_cons; now right).
      destruct (Z.ltb_spec (Z.of_nat (length ls)) 0); lia.
Qed.

(** X10. A component that subscribes and later cleans up leaves the
    listeners as they were, and cleaning up without being subscribed
    changes nothing (the [index > -1] guard). *)
Theorem subscription_round_trip e (l : nat) :
  l ∉ listeners e ->
  snd (unsubscribe l (snd (subscribe l e))) = e /\
  snd (unsubscribe l e) = e.
Proof.
  intros Hout. split.
  - unfold unsubscribe, subscribe, bind, get, modify; simpl.
    rewrite indexOf_pushed by exact Hout.
    destruct (Z.ltb_spec (-1) (Z.of_nat (length (listeners e)))); [|lia].
    simpl. unfold set_listeners; simpl. unfold splice1.
    rewrite Nat2Z.id, delete_middle, app_nil_r. now destruct e.
  - unfold unsubscribe, bind, get; simpl.
    now rewrite indexOf_absent by exact Hout.
Qed.

Lemma subscription_round_trip_witness :
  let e := snd (subscribe 3%nat initial) in
  (7%nat ∉ listeners e) /\
  snd (unsubscribe 7%nat (snd (subscribe 7%nat e))) = e.
Proof.
  intros e.
  assert (H : 7%nat ∉ listeners e).
  { intros Hin. apply list_elem_of_singleton in Hin. discriminate. }
  split; [exact H | exact (proj1 (subscription_round_trip e 7%nat H))].
Defined.

End ToastStoreTraces.

(** ** The rank table between its thresholds *)

Section RankProgress.

Import Utils.

Implicit Types (lvl : Q) (r : Rank).

Ltac settle_reached lvl :=
  repeat match goal with
    | |- context [reached lvl ?r] =>
        first
          [ assert (reached lvl r = true) as ->
              by (apply reached_iff; simpl; unfold inject_Z in *; lra)
          | assert (reached lvl r = false) as ->
              by (apply not_true_iff_false; rewrite reached_iff; simpl;
                  unfold inject_Z in *; lra) ]
    end.

Lemma between_thresholds (k : nat) r r' lvl :
  ranks !! k = Some r -> ranks !! S k = Some r' ->
  (inject_Z (level r) <= lvl)%Q -> (lvl < inject_Z (level r'))%Q ->
  getHydrationRank lvl
  = mkHydrationRank (name r) (name r')
      ((lvl - inject_Z (level r))
       / (inject_Z (level r') - inject_Z (level r)) * 100)%Q.
Proof.
  intros Hk Hk' Hle Hlt.
  do 8 (destruct k as [|k];
        [ injection Hk as <-; injection Hk' as <-; simpl in Hle, Hlt;
          unfold getHydrationRank, ranks; simpl scan; settle_reached lvl;
          reflexivity | ]).
  discriminate.
Qed.

Lemma bracket lvl :
  (1 <= lvl)%Q -> (lvl < 50)%Q ->
  exists (k : nat) r r',
    ranks !! k = Some r /\ ranks !! S k = Some r' /\
    (inject_Z (level r) <= lvl)%Q /\ (lvl < inject_Z (level r'))%Q /\
    level r < level r'.
Proof.
  intros H1 H50.
  destruct (Qlt_le_dec lvl 5);
    [exists 0%nat; do 2 eexists; repeat split; try reflexivity; simpl;
       unfold inject_Z; first [lra | lia] |].
  destruct (Qlt_le_dec lvl 10);
    [exists 1%nat; do 2 eexists; repeat split; try reflexivity; simpl;
       unfold inject_Z; first [lra | lia] |].
  destruct (Qlt_le_dec lvl 15);
    [exists 2%nat; do 2 eexists; repeat split; try reflexivity; simpl;
       unfold inject_Z; first [lra | lia] |].
  destruct (Qlt_le_dec lvl 20);
    [exists 3%nat; do 2 eexists; repeat split; try reflexivity; simpl;
       unfold inject_Z; first [lra | lia] |].
  destruct (Qlt_le_dec lvl 25);
    [exists 4%nat; do 2 eexists; repeat split; try reflexivity; simpl;
       unfold inject_Z; first [lra | lia] |].
  destruct (Qlt_le_dec lvl 30);
    [exists 5%nat; do 2 eexists; repeat split; try reflexivity; simpl;
       unfold inject_Z; first [lra | lia] |].
  destruct (Qlt_le_dec lvl 40);
    [exists 6%nat; do 2 eexists; repeat split; try reflexivity; simpl;
       unfold inject_Z; first [lra | lia] |].
  exists 7%nat; do 2 eexists; repeat split; try reflexivity; simpl;
    unfold inject_Z; first [lra | lia].
Qed.

(** X11. Between two consecutive thresholds of the table the function
    returns the lower entry as [rank], the upper one as [nextRank], and as
    [progress] the share of the tier already covered. *)
Theorem rank_between_thresholds (k : nat) r r' lvl :
  ranks !! k = Some r -> ranks !! S k = Some r' ->
  (inject_Z (level r) <= lvl)%Q -> (lvl < inject_Z (level r'))%Q ->
  rank (getHydrationRank lvl) = name r /\
  nextRank (getHydrationRank lvl) = name r' /\
  (progress (getHydrationRank lvl)
   == (lvl - inject_Z (level r))
      / (inject_Z (level r') - inject_Z (level r)) * 100)%Q.
Proof.
  intros Hk Hk' Hle Hlt.
  rewrite (between_thresholds k r r' lvl Hk Hk' Hle Hlt). simpl.
  repeat split; reflexivity.
Qed.

Lemma rank_between_thresholds_witness :
  let r := mkRank 20 "Hydro-Hero" in
  let r' := mkRank 25 "Aqua-Knight" in
  (ranks !! 4%nat = Some r /\ ranks !! 5%nat = Some r' /\
   (inject_Z (level r) <= 22)%Q /\ (22 < inject_Z (level r'))%Q) /\
  rank (getHydrationRank 22) = "Hydro-Hero" /\
  nextRank (getHydrationRank 22) = "Aqua-Knight" /\
  (progress (getHydrationRank 22) == 40)%Q.
Proof.
  intros r r'.
  assert (H1 : (inject_Z (level r) <= 22)%Q) by (unfold Qle; simpl; lia).
  assert (H2 : (22 < inject_Z (level r'))%Q) by (unfold Qlt; simpl; lia).
  split; [repeat split; try reflexivity; assumption|].
  destruct (rank_between_thresholds 4 r r' 22 eq_refl eq_refl H1 H2)
    as (Hr & Hn & Hp).
  split; [exact Hr|]. split; [exact Hn|]. rewrite Hp. reflexivity.
Defined.

(** X12. From level 1 on the progress is a percentage: it lies between 0
    and 100, and it is below 100 for every level under 50. *)
Theorem progress_is_a_percentage lvl :
  (1 <= lvl)%Q ->
  (0 <= progress (getHydrationRank lvl))%Q /\
  (progress (getHydrationRank lvl) <= 100)%Q /\
  ((lvl < 50)%Q -> (progress (getHydrationRank lvl) < 100)%Q).
Proof.
  intros H1. destruct (Qlt_le_dec lvl 50) as [Hlt|Hge].
  - destruct (bracket lvl H1 Hlt) as (k & r & r' & Hk & Hk' & Hle & Hlt' & Hrr).
    rewrite (between_thresholds k r r' lvl Hk Hk' Hle Hlt'). simpl.
    assert (0 < inject_Z (level r') - inject_Z (level r))%Q as Hpos.
    { rewrite Zlt_Qlt in Hrr. lra. }
    set (w := (inject_Z (level r') - inject_Z (level r))%Q) in *.
    set (a := (lvl - inject_Z (level r))%Q).
    assert (0 <= a)%Q as Ha0 by (unfold a; lra).
    assert (a < w)%Q as Haw by (unfold a, w; lra).
    assert (0 <= a / w)%Q as Hq0.
    { apply Qle_shift_div_l; [exact Hpos | lra]. }
    assert (a / w < 1)%Q as Hq1.
    { apply Qlt_shift_div_r; [exact Hpos | lra]. }
    repeat split; intros; lra.
  - rewrite (at_or_above_last lvl Hge). simpl. repeat split; intros; lra.
Qed.

Lemma progress_is_a_percentage_witness :
  (1 <= 7)%Q /\ (0 <= progress (getHydrationRank 7))%Q /\
  (progress (getHydrationRank 7) <= 100)%Q.
Proof.
  assert (H : (1 <= 7)%Q) by (unfold Qle; simpl; lia).
  split; [exact H|].
  destruct (progress_is_a_percentage 7 H) as (H0 & H100 & _).
  split; [exact H0 | exact H100].
Defined.

End RankProgress.

(** ** The achievements table and the profile page of a user *)

Section AchievementTable.

Import LeaderboardData.

Lemma reduce_lookup_None (users : list User.t) acc (k : Z) :
  foldl assign acc users !! k = None <->
  acc !! k = None /\ forall u, u ∈ users -> User.id u <> k.
Proof.
  revert acc. induction users as [|x users IH]; intros acc; simpl.
  - split; [intros H; split; [exact H|] | tauto].
    intros u Hu. now apply elem_of_nil in Hu.
  - rewrite IH. unfold assign at 1. rewrite lookup_insert_None. split.
    + intros [[Hacc Hx] Hrest]. split; [exact Hacc|].
      intros u Hu. apply elem_of_cons in Hu as [->|Hu]; auto.
    + intros [Hacc Hall]. split; [split; [exact Hacc|]|].
      * apply Hall, elem_of_cons. now left.
      * intros u Hu. apply Hall, elem_of_cons. now right.
Qed.

Lemma leaderboard_ids (k : Z) :
  (exists u, u ∈ leaderboardData /\ User.id u = k) <-> 1 <= k <= 10.
Proof.
  split.
  - intros (u & Hu & <-). unfold leaderboardData in Hu.
    repeat (apply elem_of_cons in Hu as [->|Hu]; [simpl; lia|]).
    now apply elem_of_nil in Hu.
  - intros Hk.
    assert (exists n : nat, (n < 10)%nat /\ k = Z.of_nat n + 1) as (n & Hn & ->)
      by (exists (Z.to_nat (k - 1)); lia).
    destruct (lookup_lt_is_Some_2 leaderboardData n) as [u Hu];
      [simpl; lia|].
    exists u. split; [eapply list_elem_of_lookup_2; exact Hu|].
    do 10 (destruct n as [|n]; [injection Hu as <-; reflexivity|]). lia.
Qed.

(** X13. The keys of [allAchievements] are the identifiers of the users
    of the leaderboard, 1 to 10, and nothing else: any other key is
    missing. *)
Theorem achievements_keys (k : Z) :
  (allAchievements !! k = None <->
   forall u, u ∈ leaderboardData -> User.id u <> k) /\
  (is_Some (allAchievements !! k) <-> 1 <= k <= 10).
Proof.
  assert (allAchievements !! k = None <->
          forall u, u ∈ leaderboardData -> User.id u <> k) as Hnone.
  { unfold allAchievements. rewrite reduce_lookup_None, lookup_empty. tauto. }
  split; [exact Hnone|].
  rewrite <- leaderboard_ids, <- not_eq_None_Some, Hnone. split.
  - intros Hn. destruct (decide (1 <= k <= 10)) as [Hk|Hk].
    + now apply leaderboard_ids.
    + destruct Hn. intros u Hu Hid. apply Hk, leaderboard_ids. eauto.
  - intros (u & Hu & Hid) Hall. exact (Hall u Hu Hid).
Qed.

Lemma achievements_keys_witness :
  (forall u, u ∈ leaderboardData -> User.id u <> 11) /\
  allAchievements !! 11 = None /\ is_Some (allAchievements !! 4).
Proof.
  assert (H : forall u, u ∈ leaderboardData -> User.id u <> 11).
  { intros u Hu. unfold leaderboardData in Hu.
    repeat (apply elem_of_cons in Hu as [->|Hu]; [discriminate|]).
    now apply elem_of_nil in Hu. }
  split; [exact H|]. split.
  - exact (proj2 (proj1 (achievements_keys 11)) H).
  - apply (proj2 (achievements_keys 4)). lia.
Defined.

(** The formula sees the user only through the parity of the
    identifier. *)
Lemma unlocked_by_parity u u' a :
  0 <= User.id u -> 0 <= User.id u' -> 0 <= Achievement.id a ->
  Z.even (User.id u) = Z.even (User.id u') ->
  unlocked u a = unlocked u' a.
Proof.
  intros Hu Hu' Ha Hpar. unfold unlocked.
  rewrite !Z.rem_mod_nonneg by lia.
  assert (exists m, User.id u = User.id u' + 2 * m) as [m ->].
  { destruct (Z.even (User.id u')) eqn:E'.
    - apply Z.even_spec in Hpar as [a1 H1]. apply Z.even_spec in E' as [a2 H2].
      exists (a1 - a2). lia.
    - rewrite <- Z.negb_odd in Hpar, E'.
      apply negb_false_iff in Hpar, E'.
      apply Z.odd_spec in Hpar as [a1 H1]. apply Z.odd_spec in E' as [a2 H2].
      exists (a1 - a2). lia. }
  replace (Achievement.id a * 3 + (User.id u' + 2 * m) * 5)
    with (Achievement.id a * 3 + User.id u' * 5 + m * 10) by lia.
  now rewrite Z_mod_plus_full.
Qed.

End AchievementTable.

Section ProfilePageOfUser.

Import LeaderboardData UserProfilePage.

Variable parseInt : string -> option Z.

Lemma find_Some {A} (p : A -> bool) (l : list A) x :
  find p l = Some x -> x ∈ l /\ p x = true.
Proof.
  induction l as [|y l IH]; simpl; [discriminate|].
  destruct (p y) eqn:E.
  - intros [= <-]. split; [apply elem_of_cons; now left | exact E].
  - intros H. destruct (IH H) as [Hin Hp].
    split; [apply elem_of_cons; now right | exact Hp].
Qed.

Lemma find_None {A} (p : A -> bool) (l : list A) :
  find p l = None <-> forall x, x ∈ l -> p x = false.
Proof.
  induction l as [|y l IH]; simpl.
  - split; [|reflexivity]. intros _ x Hx. now apply elem_of_nil in Hx.
  - destruct (p y) eqn:E.
    + split; [discriminate|]. intros H.
      rewrite H in E by (apply elem_of_cons; now left). discriminate.
    + rewrite IH. split.
      * intros H x Hx. apply elem_of_cons in Hx as [->|Hx]; auto.
      * intros H x Hx. apply H, elem_of_cons. now right.
Qed.

Lemma matches_true params_id u :
  matches parseInt params_id u = true <-> parseInt params_id = Some (User.id u).
Proof.
  unfold matches. destruct (parseInt params_id) as [n|].
  - rewrite Z.eqb_eq. split; congruence.
  - split; discriminate.
Qed.

(** X14. The profile page is not found exactly when [parseInt] of the
    route parameter is the identifier of no user. When it is found, the
    user comes from the leaderboard, the achievements shown are the 28 of
    the master list with that user's flags (the empty fallback is never
    taken), and the rank is computed from the user's level. *)
Theorem profile_page_of_user params_id :
  (UserProfilePage parseInt params_id = None <->
   forall u, u ∈ leaderboardData -> parseInt params_id <> Some (User.id u)) /\
  (forall v,
      UserProfilePage parseInt params_id = Some v ->
      user v ∈ leaderboardData /\
      parseInt params_id = Some (User.id (user v)) /\
      userAchievements v = map (unlock (user v)) allAchievementsList /\
      length (userAchievements v) = 28%nat /\
      hydrationRank v
      = Utils.getHydrationRank (inject_Z (User.level (user v)))).
Proof.
  unfold UserProfilePage. split.
  - destruct (find (matches parseInt params_id) leaderboardData) as [u|] eqn:E.
    + split; [discriminate|]. intros H.
      apply find_Some in E as [Hin Hm]. apply matches_true in Hm.
      now destruct (H u Hin).
    + split; [|reflexivity]. intros _ u Hu Hp.
      rewrite find_None in E. specialize (E u Hu).
      apply matches_true in Hp. congruence.
  - intros v Hv.
    destruct (find (matches parseInt params_id) leaderboardData) as [u|] eqn:E;
      [|discriminate].
    injection Hv as <-. simpl. apply find_Some in E as [Hin Hm].
    apply matches_true in Hm.
    assert (allAchievements !! User.id u
            = Some (map (unlock u) allAchievementsList)) as Hl
      by (apply (reduce_lookup leaderboardData ∅ u Hin)).
    rewrite Hl. repeat split; try assumption; reflexivity.
Qed.

End ProfilePageOfUser.

Section ProfilePageExample.

Import LeaderboardData UserProfilePage.

Lemma profile_page_of_user_witness :
  let parseInt :=
    fun s : string => if String.eqb s "3" then Some 3 else None in
  (forall u, u ∈ leaderboardData -> parseInt "three" <> Some (User.id u)) /\
  UserProfilePage parseInt "three" = None /\
  exists v, UserProfilePage parseInt "3" = Some v /\
            User.name (user v) = "Grace Hopper" /\
            length (userAchievements v) = 28%nat.
Proof.
  intros parseInt.
  assert (H : forall u, u ∈ leaderboardData ->
                        parseInt "three" <> Some (User.id u))
    by (intros u _; discriminate).
  split; [exact H|]. split.
  - exact (proj2 (proj1 (profile_page_of_user parseInt "three")) H).
  - destruct (UserProfilePage parseInt "3") as [v|] eqn:E; [|discriminate].
    exists v. split; [reflexivity|].
    destruct (proj2 (profile_page_of_user parseInt "3") v E)
      as (_ & _ & _ & Hlen & _).
    split; [|exact Hlen]. injection E as <-. reflexivity.
Defined.

End ProfilePageExample.

Section AchievementPatterns.

Import LeaderboardData.

(** X15. The achievement flags depend on the user only through the parity
    of the identifier: two users whose identifiers are both even or both
    odd have the same achievements unlocked. *)
Theorem achievements_depend_on_parity u u' a :
  0 <= User.id u -> 0 <= User.id u' -> 0 <= Achievement.id a ->
  Z.even (User.id u) = Z.even (User.id u') ->
  unlock u a = unlock u' a.
Proof.
  intros Hu Hu' Ha Hpar. unfold unlock.
  now rewrite (unlocked_by_parity u u' a Hu Hu' Ha Hpar).
Qed.

Lemma achievements_depend_on_parity_witness :
  let joan := User.mk 1 1 "Joan Clarke" 13500 "woman thinking" 42 28 in
  let grace := User.mk 3 3 "Grace Hopper" 12000 "woman in navy uniform" 30 24 in
  let a := Achievement.mk 5 Trophy "H2O Pro" "Drink 100 L total." in
  (0 <= User.id joan /\ 0 <= User.id grace /\ 0 <= Achievement.id a /\
   Z.even (User.id joan) = Z.even (User.id grace)) /\
  unlock joan a = unlock grace a.
Proof.
  intros joan grace a.
  assert (H1 : 0 <= User.id joan) by (simpl; lia).
  assert (H2 : 0 <= User.id grace) by (simpl; lia).
  assert (H3 : 0 <= Achievement.id a) by (simpl; lia).
  split; [repeat split; try assumption; reflexivity|].
  exact (achievements_depend_on_parity joan grace a H1 H2 H3 eq_refl).
Defined.

End AchievementPatterns.

(** ** The dashboard counters while the simulation runs *)

Section DashboardCounters.

Import UseToast Dashboard DashboardView.

Implicit Types (s : Component) (e : Env) (d : Z) (rnd : Q).

Lemma logDrink_level d s :
  level (logDrink d s)
  = if (0 <? d) && (xpToNextLevel s <=? xp s + d) then level s + 1 else level s.
Proof.
  unfold logDrink. destruct (0 <? d); [|reflexivity].
  now destruct (xpToNextLevel s <=? xp s + d).
Qed.

Lemma logDrink_xp d s :
  xp (logDrink d s)
  = if 0 <? d
    then if xpToNextLevel s <=? xp s + d
         then xp s + d - xpToNextLevel s else xp s + d
    else xp s.
Proof.
  unfold logDrink. destruct (0 <? d); [|reflexivity].
  destruct (xpToNextLevel s <=? xp s + d) eqn:E; simpl; now rewrite E.
Qed.

Lemma logDrink_levelUpInfo d s :
  levelUpInfo (logDrink d s)
  = if (0 <? d) && (xpToNextLevel s <=? xp s + d)
    then Some (level s + 1) else levelUpInfo s.
Proof.
  unfold logDrink. destruct (0 <? d); [|reflexivity].
  now destruct (xpToNextLevel s <=? xp s + d).
Qed.

Lemma logDrink_isConnected d s : isConnected (logDrink d s) = isConnected s.
Proof.
  unfold logDrink. destruct (0 <? d); [|reflexivity].
  now destruct (xpToNextLevel s <=? xp s + d).
Qed.

(** X16. A drink never loses experience: counting the [100 * l] points
    spent on every level [l] already passed, the total grows by exactly the
    amount drunk, also across a level-up, which carries the surplus over.
    The level rises by one exactly when the new total reaches
    [xpToNextLevel], and [levelUpInfo] then holds the new level. *)
Theorem drink_conserves_experience d s :
  0 < d ->
  xp (logDrink d s) + 50 * level (logDrink d s) * (level (logDrink d s) - 1)
  = xp s + 50 * level s * (level s - 1) + d /\
  (xpToNextLevel s <= xp s + d ->
   level (logDrink d s) = level s + 1 /\
   levelUpInfo (logDrink d s) = Some (level s + 1)) /\
  (xp s + d < xpToNextLevel s ->
   level (logDrink d s) = level s /\
   levelUpInfo (logDrink d s) = levelUpInfo s).
Proof.
  intros Hd. rewrite logDrink_level, logDrink_xp, logDrink_levelUpInfo.
  unfold xpToNextLevel.
  destruct (Z.ltb_spec 0 d); [|lia]. simpl.
  destruct (Z.leb_spec (level s * 100) (xp s + d)); repeat split; try lia;
    try reflexivity.
Qed.

Lemma drink_conserves_experience_witness :
  let s := mkComponent true (mkHydration 400 2500) 350 5
                       (mkMotivation "Keep going" "Nice") 2 150 40 None in
  0 < 100 /\
  level (logDrink 100 s) = 3 /\ xp (logDrink 100 s) = 50 /\
  levelUpInfo (logDrink 100 s) = Some 3.
Proof.
  intros s. assert (H : 0 < 100) by lia. split; [exact H|].
  destruct (drink_conserves_experience 100 s H) as (_ & Hup & _).
  destruct Hup as [Hl Hi]; [unfold xpToNextLevel; simpl; lia|].
  split; [exact Hl|]. split; [reflexivity | exact Hi].
Defined.

Lemma handleConnect_consistent s e : consistent (fst (handleConnect s e)).
Proof.
  rewrite handleConnect_state. unfold consistent, xpToNextLevel; simpl.
  repeat split; lia.
Qed.

Lemma logDrink_consistent d s :
  d = 50 \/ d = 100 \/ d = 150 -> consistent s -> consistent (logDrink d s).
Proof.
  intros Hd (Hc & Hg & Hdr & Hcur & Hb & Hl & Hxp & Htot).
  assert (0 < d) as Hpos by lia.
  assert (10 * (d / 10) = d) as Hdiv
    by (destruct Hd as [Hd|[Hd|Hd]]; rewrite Hd; reflexivity).
  unfold consistent, xpToNextLevel in *.
  rewrite logDrink_isConnected, logDrink_hydration, logDrink_drops,
    logDrink_bottleLevel, !logDrink_level, logDrink_xp.
  unfold xpToNextLevel in *.
  destruct (Z.ltb_spec 0 d); [|lia]. simpl.
  destruct (Z.leb_spec (level s * 100) (xp s + d)); simpl;
    repeat split; try assumption; try lia.
Qed.

Lemma levelUpEffect_counters s e :
  exists info,
    fst (levelUpEffect s e)
    = mkComponent (isConnected s) (hydration s) (bottleLevel s) (streak s)
                  (motivation s) (level s) (xp s) (drops s) info.
Proof.
  unfold levelUpEffect. destruct (levelUpInfo s) as [n|] eqn:E.
  - destruct (n =? 0).
    + exists (Some n). destruct s; simpl in *. now subst.
    + unfold bind. destruct (toast _ e). exists None. reflexivity.
  - exists None. destruct s; simpl in *. now subst.
Qed.

Lemma handle_consistent ev s e :
  possible ev -> consistent s -> consistent (fst (handle ev s e)).
Proof.
  intros Hev Hs. destruct ev as [rnd|]; simpl.
  - destruct Hev as [H0 H1]. destruct (isConnected s); [|exact Hs].
    apply logDrink_consistent; [|exact Hs]. now apply drank_values.
  - destruct (levelUpEffect_counters s e) as [info ->]. exact Hs.
Qed.

Lemma run_consistent evs s e :
  Forall possible evs -> consistent s -> consistent (fst (run evs s e)).
Proof.
  revert s e. induction evs as [|ev evs IH]; intros s e Hall Hs; [exact Hs|].
  apply Forall_cons_1 in Hall as [Hev Hall]. simpl. unfold bind.
  pose proof (handle_consistent ev s e Hev Hs) as Hs'.
  destruct (handle ev s e) as [s1 e1]. now apply IH.
Qed.

End DashboardCounters.

Section DashboardInvariants.

Import UseToast Dashboard DashboardView.

Implicit Types (s : Component) (e : Env) (d : Z) (rnd : Q).

Lemma ratio_is_a_percentage (a w : Z) :
  0 <= a -> a <= w -> 0 < w ->
  (0 <= inject_Z a / inject_Z w * 100)%Q /\
  (inject_Z a / inject_Z w * 100 <= 100)%Q /\
  (a < w -> (inject_Z a / inject_Z w * 100 < 100)%Q).
Proof.
  intros Ha Haw Hw.
  rewrite Zle_Qle in Ha, Haw. rewrite Zlt_Qlt in Hw.
  change (inject_Z 0) with 0%Q in *.
  assert (0 <= inject_Z a / inject_Z w)%Q as Hq0
      by (apply Qle_shift_div_l; [exact Hw | lra]).
  assert (inject_Z a / inject_Z w <= 1)%Q as Hq1
      by (apply Qle_shift_div_r; [exact Hw | lra]).
  split; [lra|]. split; [lra|].
  intros Hlt. rewrite Zlt_Qlt in Hlt.
  assert (inject_Z a / inject_Z w < 1)%Q
      by (apply Qlt_shift_div_r; [exact Hw | lra]).
  lra.
Qed.

(** X17. After connecting, whatever [Math.random] returns, the level is
    at least 1 and the experience stays below [xpToNextLevel], so the XP
    bar shows a value from 0 up to, but not including, 100. *)
Theorem experience_stays_below_next_level s e evs :
  Forall possible evs ->
  let s' := fst (run evs (fst (handleConnect s e)) (snd (handleConnect s e))) in
  1 <= level s' /\
  0 <= xp s' < xpToNextLevel s' /\
  (0 <= xpBar s')%Q /\ (xpBar s' < 100)%Q.
Proof.
  intros Hall. cbv zeta.
  pose proof (run_consistent evs _ (snd (handleConnect s e)) Hall
                (handleConnect_consistent s e))
    as (_ & _ & _ & _ & _ & Hl & Hxp & _).
  split; [exact Hl|]. split; [exact Hxp|].
  unfold xpBar.
  destruct (ratio_is_a_percentage _ (xpToNextLevel _)
              (proj1 Hxp) (Z.lt_le_incl _ _ (proj2 Hxp)))
    as (H0 & _ & Hlt); [lia|].
  split; [exact H0 | exact (Hlt (proj2 Hxp))].
Qed.

Lemma experience_stays_below_next_level_witness :
  let s := mount (mkMotivation "Let's go" "Welcome Back!") in
  let evs := [Tick (2 # 3); LevelUp; Tick (1 # 10)] in
  let s' := fst (run evs (fst (handleConnect s initial))
                     (snd (handleConnect s initial))) in
  Forall possible evs /\
  (xp s' = 100 /\ level s' = 2) /\
  0 <= xp s' < xpToNextLevel s'.
Proof.
  intros s evs s'.
  assert (H : Forall possible evs).
  { repeat constructor; unfold Qle, Qlt; simpl; lia. }
  split; [exact H|]. split; [split; reflexivity|].
  exact (proj1 (proj2 (experience_stays_below_next_level s initial evs H))).
Defined.

(** X18. While the simulation runs, every counter is determined by the
    drops: ten drops are awarded per 100 ml, so the intake is
    [min(10 * drops, goal)], the bottle holds [max(0, 750 - 10 * drops)],
    and the experience earned over all levels is [10 * drops]. *)
Theorem counters_follow_drops s e evs :
  Forall possible evs ->
  let s' := fst (run evs (fst (handleConnect s e)) (snd (handleConnect s e))) in
  isConnected s' = true /\
  goal (hydration s') = 2500 /\
  0 <= drops s' /\
  current (hydration s') = Z.min (10 * drops s') (goal (hydration s')) /\
  bottleLevel s' = Z.max 0 (750 - 10 * drops s') /\
  xp s' + 50 * level s' * (level s' - 1) = 10 * drops s'.
Proof.
  intros Hall. cbv zeta.
  pose proof (run_consistent evs _ (snd (handleConnect s e)) Hall
                (handleConnect_consistent s e))
    as (Hc & Hg & Hd & Hcur & Hb & _ & _ & Htot).
  rewrite Hg. repeat split; assumption.
Qed.

Lemma counters_follow_drops_witness :
  let s := mount (mkMotivation "Let's go" "Welcome Back!") in
  let evs := [Tick (2 # 3); Tick (2 # 3); Tick (2 # 3); Tick (2 # 3);
              Tick (2 # 3); Tick (1 # 2)] in
  let s' := fst (run evs (fst (handleConnect s initial))
                     (snd (handleConnect s initial))) in
  Forall possible evs /\
  drops s' = 85 /\ bottleLevel s' = 0 /\ current (hydration s') = 850.
Proof.
  intros s evs s'.
  assert (H : Forall possible evs).
  { repeat constructor; unfold Qle, Qlt; simpl; lia. }
  split; [exact H|].
  destruct (counters_follow_drops s initial evs H)
    as (_ & _ & _ & Hcur & Hb & _).
  split; [reflexivity|]. split; [exact Hb | exact Hcur].
Defined.

(** X19. What the dashboard draws stays in range while the simulation
    runs: the ring shows between 0 and 100 percent, the water remaining is
    between 0 and the goal, and the bottle shows between 0 and 100
    percent. *)
Theorem rendered_values_stay_in_range s e evs :
  Forall possible evs ->
  let s' := fst (run evs (fst (handleConnect s e)) (snd (handleConnect s e))) in
  ((0 <= progress s')%Q /\ (progress s' <= 100)%Q) /\
  0 <= waterRemaining s' <= 2500 /\
  0 <= bottlePercent s' <= 100.
Proof.
  intros Hall. cbv zeta.
  pose proof (run_consistent evs _ (snd (handleConnect s e)) Hall
                (handleConnect_consistent s e))
    as (_ & Hg & Hd & Hcur & Hb & _).
  set (s' := fst (run evs _ _)) in *.
  split; [|split].
  - unfold progress.
    destruct (ratio_is_a_percentage (current (hydration s')) (goal (hydration s')))
      as (H0 & H100 & _); try lia. now split.
  - unfold waterRemaining. lia.
  - unfold bottlePercent, Math_round.
    assert (0 <= bottleLevel s' <= 750) as Hbl by lia.
    destruct (ratio_is_a_percentage (bottleLevel s') 750) as (H0 & H100 & _);
      try lia.
    change (inject_Z 750) with 750%Q in *.
    split.
    + apply (Z.le_trans _ (Qfloor 0)); [reflexivity|].
      apply Qfloor_resp_le. lra.
    + apply (Z.le_trans _ (Qfloor (100 + (1 # 2)))); [|now vm_compute].
      apply Qfloor_resp_le. lra.
Qed.

Lemma rendered_values_stay_in_range_witness :
  let s := mount (mkMotivation "Let's go" "Welcome Back!") in
  let evs := [Tick (2 # 3); Tick (1 # 2)] in
  let s' := fst (run evs (fst (handleConnect s initial))
                     (snd (handleConnect s initial))) in
  Forall possible evs /\
  waterRemaining s' = 2250 /\ 0 <= bottlePercent s' <= 100.
Proof.
  intros s evs s'.
  assert (H : Forall possible evs).
  { repeat constructor; unfold Qle, Qlt; simpl; lia. }
  split; [exact H|].
  destruct (rendered_values_stay_in_range s initial evs H) as (_ & _ & Hb).
  split; [reflexivity | exact Hb].
Defined.

(** X20. A tick only ever drains the bottle and adds to the intake: with
    a bottle level that is not negative and an intake within the goal, the
    bottle level does not rise, the intake, the level and the drops do not
    fall, and the goal and the streak are left alone. *)
Theorem tick_never_refills rnd s :
  0 <= bottleLevel s -> current (hydration s) <= goal (hydration s) ->
  (0 <= rnd)%Q -> (rnd < 1)%Q ->
  bottleLevel (intervalTick rnd s) <= bottleLevel s /\
  current (hydration s) <= current (hydration (intervalTick rnd s)) /\
  level s <= level (intervalTick rnd s) /\
  drops s < drops (intervalTick rnd s) /\
  goal (hydration (intervalTick rnd s)) = goal (hydration s) /\
  streak (intervalTick rnd s) = streak s.
Proof.
  intros Hb Hcur H0 H1. unfold intervalTick.
  pose proof (drank_values rnd H0 H1) as Hd.
  assert (0 < drank rnd) as Hpos by lia.
  assert (0 < drank rnd / 10) as Hdiv.
  { apply Z.div_str_pos. lia. }
  rewrite logDrink_bottleLevel, logDrink_hydration, logDrink_level,
    logDrink_drops.
  assert (streak (logDrink (drank rnd) s) = streak s) as ->.
  { unfold logDrink. destruct (0 <? drank rnd); [|reflexivity].
    now destruct (xpToNextLevel s <=? xp s + drank rnd). }
  destruct (Z.ltb_spec 0 (drank rnd)); [|lia]. simpl.
  destruct (xpToNextLevel s <=? xp s + drank rnd); repeat split; lia.
Qed.

Lemma tick_never_refills_witness :
  let s := mkComponent true (mkHydration 2450 2500) 100 5
                       (mkMotivation "Keep going" "Nice") 1 60 12 None in
  (0 <= bottleLevel s /\ current (hydration s) <= goal (hydration s) /\
   (0 <= 2 # 3)%Q /\ (2 # 3 < 1)%Q) /\
  bottleLevel (intervalTick (2 # 3) s) <= 100 /\
  2450 <= current (hydration (intervalTick (2 # 3) s)).
Proof.
  intros s.
  assert (Hb : 0 <= bottleLevel s) by (simpl; lia).
  assert (Hc : current (hydration s) <= goal (hydration s)) by (simpl; lia).
  assert (H0 : (0 <= 2 # 3)%Q) by (unfold Qle; simpl; lia).
  assert (H1 : (2 # 3 < 1)%Q) by (unfold Qlt; simpl; lia).
  split; [repeat split; assumption|].
  destruct (tick_never_refills (2 # 3) s Hb Hc H0 H1) as (Hbl & Hcu & _).
  split; [exact Hbl | exact Hcu].
Defined.

(** X21. The level-up effect announces a new level once: when
    [levelUpInfo] holds a level other than 0 it shows one toast naming that
    level and clears [levelUpInfo]; when [levelUpInfo] is null nothing
    happens; and running the effect a second time never does anything. *)
Theorem level_up_is_announced_once s e :
  (forall n, levelUpInfo s = Some n -> n <> 0 ->
     let i := pretty (Z.rem (count e + 1) MAX_SAFE_INTEGER) in
     levelUpInfo (fst (levelUpEffect s e)) = None /\
     level (fst (levelUpEffect s e)) = level s /\
     toasts (memoryState (snd (levelUpEffect s e)))
     = [mkToast i (Some (Text "Level Up!"))
                (Some (Text ("Congratulations, you've reached level "
                               ++ pretty n ++ "!")))
                None (Some true) (Some (DismissWhenClosed i))]) /\
  (levelUpInfo s = None -> levelUpEffect s e = (s, e)) /\
  levelUpEffect (fst (levelUpEffect s e)) (snd (levelUpEffect s e))
  = levelUpEffect s e.
Proof.
  split; [|split].
  - intros n Hn Hne. cbv zeta. unfold levelUpEffect. rewrite Hn.
    destruct (Z.eqb_spec n 0); [contradiction|]. unfold bind.
    destruct (toast_shows
                (mkProps (Some (Text "Level Up!"))
                         (Some (Text ("Congratulations, you've reached level "
                                        ++ pretty n ++ "!")))
                         None None None) e) as [r Hr].
    cbv zeta in Hr. rewrite Hr. simpl. repeat split.
  - intros Hn. unfold levelUpEffect. now rewrite Hn.
  - unfold levelUpEffect at 2 3 4.
    destruct (levelUpInfo s) as [n|] eqn:Hn.
    + destruct (Z.eqb_spec n 0) as [->|Hne].
      * unfold ret; simpl. unfold levelUpEffect. now rewrite Hn.
      * unfold bind. destruct (toast _ e) as [i0 e1]. reflexivity.
    + unfold ret; simpl. unfold levelUpEffect. now rewrite Hn.
Qed.

Lemma level_up_is_announced_once_witness :
  let s := mkComponent true (mkHydration 150 2500) 600 5
                       (mkMotivation "Keep going" "Nice") 2 50 15 (Some 2) in
  (levelUpInfo s = Some 2 /\ 2 <> 0) /\
  levelUpInfo (fst (levelUpEffect s initial)) = None /\
  toasts (memoryState (snd (levelUpEffect s initial)))
  = [mkToast "1" (Some (Text "Level Up!"))
             (Some (Text "Congratulations, you've reached level 2!"))
             None (Some true) (Some (DismissWhenClosed "1"))].
Proof.
  intros s.
  assert (H1 : levelUpInfo s = Some 2) by reflexivity.
  assert (H2 : 2 <> 0) by lia.
  split; [split; assumption|].
  destruct (proj1 (level_up_is_announced_once s initial) 2 H1 H2)
    as (Hi & _ & Ht).
  split; [exact Hi | exact Ht].
Defined.

End DashboardInvariants.

(** ** The server side: the initial motivation and the insights action *)

Section InitialMotivation.

Import ProfileActions DashboardPage.

Context {Error : Type}.
Variable newError : string -> Error.
Variable getMotivation :
  MotivationInput -> Result Error (option Dashboard.MotivationOutput).

(** X22. [getInitialMotivation] asks the flow about Joan Clarke with a
    streak of 5 and no progress. It returns the flow's message, and logs
    nothing, exactly when the flow returns one; when the flow throws or
    returns null it returns the fixed welcome message and logs one
    error. *)
Theorem initial_motivation_falls_back :
  (forall result,
      getMotivation (mkMotivationInput "Joan Clarke" 5 0) = Returns (Some result) ->
      getInitialMotivation Error newError getMotivation = (result, [])) /\
  (snd (getInitialMotivation Error newError getMotivation) = [] <->
   exists result,
     getMotivation (mkMotivationInput "Joan Clarke" 5 0) = Returns (Some result)) /\
  ((forall result,
       getMotivation (mkMotivationInput "Joan Clarke" 5 0)
       <> Returns (Some result)) ->
   fst (getInitialMotivation Error newError getMotivation) = fallback /\
   Dashboard.motivation_title
     (fst (getInitialMotivation Error newError getMotivation)) = "Welcome Back!" /\
   length (snd (getInitialMotivation Error newError getMotivation)) = 1%nat).
Proof.
  unfold getInitialMotivation, motivationInput.
  destruct (getMotivation (mkMotivationInput "Joan Clarke" 5 0))
    as [[result|]|err].
  - split; [now intros r [= <-]|]. split; [split; eauto|].
    intros H. now destruct (H result).
  - split; [discriminate|]. split; [|now intros _].
    split; [discriminate | intros [r Hr]; discriminate].
  - split; [discriminate|]. split; [|now intros _].
    split; [discriminate | intros [r Hr]; discriminate].
Qed.

End InitialMotivation.

Section InitialMotivationExample.

Import ProfileActions DashboardPage.

Lemma initial_motivation_falls_back_witness :
  let rateLimited :=
    fun _ : MotivationInput =>
      @Throws string (option Dashboard.MotivationOutput) "429 Too Many Requests" in
  (forall result,
      rateLimited (mkMotivationInput "Joan Clarke" 5 0) <> Returns (Some result)) /\
  Dashboard.motivation_title
    (fst (getInitialMotivation string (fun m => m) rateLimited))
  = "Welcome Back!".
Proof.
  intros rateLimited.
  assert (H : forall result,
             rateLimited (mkMotivationInput "Joan Clarke" 5 0)
             <> Returns (Some result)) by (intros result; discriminate).
  split; [exact H|].
  exact (proj1 (proj2 (proj2 (proj2 (initial_motivation_falls_back
                                       (fun m => m) rateLimited)) H))).
Defined.

End InitialMotivationExample.

Section InsightsAction.

Import ProfileActions ProfileInsights.

Context {Data Error : Type}.
Variable parse : Data -> Result Error Input.
Variable flow : Input -> Result Error Output.

Lemma insights_invalid data err :
  parse data = Throws err ->
  getProfileInsightsAction parse flow data
  = (None, [ConsoleError "Error getting profile insights:" err]).
Proof. intros H. unfold getProfileInsightsAction. now rewrite H. Qed.

Lemma insights_flow_fails data v err :
  parse data = Returns v -> flow v = Throws err ->
  getProfileInsightsAction parse flow data
  = (None, [InsightsCalled v;
            ConsoleError "Error getting profile insights:" err]).
Proof.
  intros H1 H2. unfold getProfileInsightsAction. now rewrite H1, H2.
Qed.

Lemma insights_succeeds data v r :
  parse data = Returns v -> flow v = Returns r ->
  getProfileInsightsAction parse flow data = (Some r, [InsightsCalled v]).
Proof.
  intros H1 H2. unfold getProfileInsightsAction. now rewrite H1, H2.
Qed.

(** X23. [getProfileInsightsAction] returns null exactly when the
    validation or the flow throws, and then logs that error; otherwise it
    returns what the flow returned. The flow receives the validated data as
    they are, and is not called when the validation throws. *)
Theorem insights_null_iff_throws data :
  (fst (getProfileInsightsAction parse flow data) = None <->
   (exists err, parse data = Throws err) \/
   (exists v err, parse data = Returns v /\ flow v = Throws err)) /\
  (forall v r, parse data = Returns v -> flow v = Returns r ->
               getProfileInsightsAction parse flow data
               = (Some r, [InsightsCalled v])) /\
  (forall err, parse data = Throws err ->
               getProfileInsightsAction parse flow data
               = (None, [ConsoleError "Error getting profile insights:" err])) /\
  (forall v err, parse data = Returns v -> flow v = Throws err ->
               getProfileInsightsAction parse flow data
               = (None, [InsightsCalled v;
                         ConsoleError "Error getting profile insights:" err])).
Proof.
  split; [split|].
  - intros Hnone. destruct (parse data) as [v|err] eqn:Hp; [|eauto].
    destruct (flow v) as [r|err] eqn:Hf.
    + rewrite (insights_succeeds data v r Hp Hf) in Hnone. discriminate.
    + right. eauto.
  - intros [[err Hp]|(v & err & Hp & Hf)].
    + now rewrite (insights_invalid data err Hp).
    + now rewrite (insights_flow_fails data v err Hp Hf).
  - split; [|split].
    + apply insights_succeeds.
    + apply insights_invalid.
    + apply insights_flow_fails.
Qed.

End InsightsAction.

Section InsightsActionExample.

Import ProfileActions ProfileInsights.

Lemma insights_null_iff_throws_witness :
  let parse :=
    fun data : option Input =>
      match data with
      | Some v => Returns v
      | None => @Throws string Input "Required"
      end in
  let flow :=
    fun v : Input =>
      @Returns string Output (mkOutput ("Well done, " ++ name v)) in
  let joan := mkInput "Joan Clarke" 28 "Aqua-Knight" "[]" None in
  fst (getProfileInsightsAction parse flow (Some joan))
  = Some (mkOutput "Well done, Joan Clarke") /\
  fst (getProfileInsightsAction parse flow None) = None.
Proof.
  intros parse flow joan. split.
  - exact (f_equal fst
             (proj1 (proj2 (insights_null_iff_throws parse flow (Some joan)))
                    joan (mkOutput "Well done, Joan Clarke")
                    eq_refl eq_refl)).
  - apply (proj1 (insights_null_iff_throws parse flow None)).
    left. exists "Required". reflexivity.
Defined.

End InsightsActionExample.

(** ** The developer options and the navigation bar *)

Section DeveloperReadings.

Import DeveloperOptions.

(** X24. With [Math.random()] in [0, 1) the simulated readings stay in
    their ranges: the event picked is always one of the eight of the list
    (never [undefined]), the water level is in [0, 750) and every
    accelerometer axis is in [-1, 1). *)
Theorem simulated_readings_in_range (rnd r2 r3 : Q) :
  (0 <= rnd)%Q -> (rnd < 1)%Q ->
  (0 <= r2)%Q -> (r2 < 1)%Q -> (0 <= r3)%Q -> (r3 < 1)%Q ->
  (exists ev, pickEvent rnd = Some ev /\ ev ∈ events) /\
  ((0 <= waterLevel rnd)%Q /\ (waterLevel rnd < 750)%Q) /\
  ((-1 <= x (position rnd r2 r3))%Q /\ (x (position rnd r2 r3) < 1)%Q /\
   (-1 <= y (position rnd r2 r3))%Q /\ (y (position rnd r2 r3) < 1)%Q /\
   (-1 <= z (position rnd r2 r3))%Q /\ (z (position rnd r2 r3) < 1)%Q).
Proof.
  intros H0 H1 H20 H21 H30 H31. split; [|split].
  - unfold pickEvent. simpl length. change (Z.of_nat 8) with 8.
    set (i := Qfloor (rnd * inject_Z 8)).
    pose proof (Qfloor_le (rnd * inject_Z 8)) as Hlo.
    pose proof (Qlt_floor (rnd * inject_Z 8)) as Hhi.
    fold i in Hlo, Hhi.
    assert (i < 8) as Hlt.
    { rewrite Zlt_Qlt.
      apply Qle_lt_trans with (rnd * inject_Z 8)%Q; [exact Hlo|].
      unfold inject_Z. lra. }
    assert (0 < i + 1) as Hgt.
    { rewrite Zlt_Qlt.
      apply Qle_lt_trans with (rnd * inject_Z 8)%Q; [|exact Hhi].
      unfold inject_Z. lra. }
    unfold Utils.at_index. destruct (Z.ltb_spec i 0); [lia|].
    destruct (lookup_lt_is_Some_2 events (Z.to_nat i)) as [ev Hev];
      [simpl; lia|].
    exists ev. split; [exact Hev|]. eapply list_elem_of_lookup_2. exact Hev.
  - unfold waterLevel. split; lra.
  - unfold position; simpl. repeat split; lra.
Qed.

Lemma simulated_readings_in_range_witness :
  ((0 <= 7 # 8)%Q /\ (7 # 8 < 1)%Q) /\
  pickEvent (7 # 8) = Some "GOAL_REACHED" /\
  (waterLevel (7 # 8) < 750)%Q.
Proof.
  assert (H0 : (0 <= 7 # 8)%Q) by (unfold Qle; simpl; lia).
  assert (H1 : (7 # 8 < 1)%Q) by (unfold Qlt; simpl; lia).
  split; [split; assumption|]. split; [reflexivity|].
  exact (proj2 (proj1 (proj2 (simulated_readings_in_range
                                (7 # 8) (7 # 8) (7 # 8)
                                H0 H1 H0 H1 H0 H1)))).
Defined.

Lemma take_app_take {A} (n : nat) (l1 l2 : list A) :
  take n (l1 ++ take n l2) = take n (l1 ++ l2).
Proof.
  rewrite !take_app, take_take. f_equal. f_equal. lia.
Qed.

Lemma pushed_lines (lines acc : list string) :
  (length acc <= 50)%nat ->
  foldl (fun log line => pushLog line log) acc lines
  = take 50 (reverse lines ++ acc).
Proof.
  revert acc. induction lines as [|line lines IH]; intros acc Hacc; simpl.
  - symmetry. now apply take_ge.
  - rewrite IH by (unfold pushLog; rewrite length_take; lia).
    unfold pushLog. rewrite take_app_take, reverse_cons, <- app_assoc.
    reflexivity.
Qed.

(** X25. The event log keeps the 50 most recent lines, newest first:
    after any number of firings, starting from the empty log, it is the
    first 50 entries of the lines in reverse order of arrival, so it never
    holds more than 50. *)
Theorem event_log_keeps_last_fifty (lines : list string) :
  let log := foldl (fun log line => pushLog line log) [] lines in
  log = take 50 (reverse lines) /\
  length log = Nat.min 50 (length lines) /\
  head log = last lines.
Proof.
  cbv zeta.
  assert (foldl (fun log line => pushLog line log) [] lines
          = take 50 (reverse lines)) as ->.
  { rewrite pushed_lines by (simpl; lia). now rewrite app_nil_r. }
  split; [reflexivity|]. split.
  - now rewrite length_take, length_reverse.
  - destruct lines as [|l0 lines] using rev_ind; [reflexivity|].
    now rewrite reverse_snoc, last_snoc.
Qed.

End DeveloperReadings.

Section NavigationBar.

Import BottomNav.

(** X26. Whatever the path, at most one item of the navigation bar is
    active, and one is active exactly when the path is the link of an item;
    on any other path, such as the profile of a user, none is. *)
Theorem at_most_one_active_item (pathname : string) :
  (length (List.filter (isActive pathname) navItems) <= 1)%nat /\
  (length (List.filter (isActive pathname) navItems) = 1%nat <->
   pathname ∈ map href navItems).
Proof.
  unfold navItems, isActive; simpl.
  destruct (String.eqb_spec pathname "/dashboard") as [->|H1];
    [simpl; split; [lia|split; [intros _; set_solver | reflexivity]]|].
  destruct (String.eqb_spec pathname "/timeline") as [->|H2];
    [simpl; split; [lia|split; [intros _; set_solver | reflexivity]]|].
  destruct (String.eqb_spec pathname "/leaderboard") as [->|H3];
    [simpl; split; [lia|split; [intros _; set_solver | reflexivity]]|].
  destruct (String.eqb_spec pathname "/profile") as [->|H4];
    [simpl; split; [lia|split; [intros _; set_solver | reflexivity]]|].
  simpl. split; [lia|]. split; [discriminate|].
  intros Hin. repeat (apply elem_of_cons in Hin as [Hin|Hin]; [congruence|]).
  now apply elem_of_nil in Hin.
Qed.

End NavigationBar.
